(** * Aureolin: route assembly and request dispatch

    A verification development for the routing layer of Aureolin
    (a decorator-driven REST framework on top of Koa):

    - [handleRoute]           (src/handlers/route.ts)
    - [configureMiddlewares]  (class AureolinApplication)
    - [configureRouters]      (class AureolinApplication)

    The JavaScript code is embedded shallowly: values are an inductive
    type, asynchronous functions are functions in a state-and-exception
    monad over the mutable object they work on (the Koa context for one
    request, the application object during start-up), and [await] is
    sequencing. *)

From Stdlib Require Import ZArith Lia String Ascii.
From stdpp Require Import base option list sorting strings pretty gmap.

Local Open Scope string_scope.
Local Open Scope list_scope.
Local Open Scope Z_scope.

(** ** JavaScript values *)

(** Numbers are restricted to the integers (status codes, argument
    indices) plus [NaN]; objects are property lists, read first match
    first.  Object identity is not modelled: an assignment stores the
    value itself, so [===] between a stored value and the value that was
    assigned is equality of terms. *)
#[warnings="-register-all"] Inductive Value : Type :=
  | VUndefined
  | VNull
  | VBool (b : bool)
  | VNum (n : Z)
  | VNaN
  | VStr (s : string)
  | VObj (fields : list (string * Value)).

(** The outcome of evaluating an expression or awaiting a promise:
    a value, or a thrown / rejected value. *)
Inductive Completion (A : Type) : Type :=
  | Normal (a : A)
  | Throw (e : Value).
Arguments Normal {A} a.
Arguments Throw {A} e.

(** [ToBoolean]: the falsy values are [undefined], [null], [false],
    [0], [NaN] and the empty string. *)
Definition toBoolean (v : Value) : bool :=
  match v with
  | VUndefined | VNull | VNaN => false
  | VBool b => b
  | VNum n => negb (n =? 0)
  | VStr s => negb (String.eqb s "")
  | VObj _ => true
  end.

(** [a || b] on values. *)
Definition or_else (a b : Value) : Value :=
  if toBoolean a then a else b.

(** [v === 500]. *)
Definition is500 (v : Value) : bool :=
  match v with
  | VNum n => n =? 500
  | _ => false
  end.

Fixpoint lookupField (k : string) (fields : list (string * Value)) : Value :=
  match fields with
  | [] => VUndefined
  | (k', v) :: rest => if String.eqb k k' then v else lookupField k rest
  end.

Definition typeError (msg : string) : Value :=
  VObj [("name", VStr "TypeError"); ("message", VStr msg)].

(** Property read [v.k].  Reading a property of [null] or [undefined]
    throws a [TypeError]; a primitive is boxed, and the wrapper
    prototypes define none of the properties read by this program
    ([data], [status], [message]). *)
Definition getProp (v : Value) (k : string) : Completion Value :=
  match v with
  | VUndefined | VNull =>
      Throw (typeError ("Cannot read properties of null or undefined (reading '" +:+ k +:+ "')"))
  | VObj fields => Normal (lookupField k fields)
  | _ => Normal VUndefined
  end.

(** ** A state-and-exception monad

    [M S A] is a computation over a mutable object of type [S] that
    returns an [A] or throws.  Mutations made before a throw persist. *)
Definition M (S A : Type) : Type := S -> Completion A * S.

Definition ret {S A} (a : A) : M S A := fun s => (Normal a, s).
Definition throw {S A} (e : Value) : M S A := fun s => (Throw e, s).
Definition bind {S A B} (m : M S A) (k : A -> M S B) : M S B :=
  fun s =>
    match m s with
    | (Normal a, s') => k a s'
    | (Throw e, s') => (Throw e, s')
    end.
Definition lift {S A} (c : Completion A) : M S A := fun s => (c, s).
Definition gets {S A} (f : S -> A) : M S A := fun s => (Normal (f s), s).
Definition modify {S} (f : S -> S) : M S unit := fun s => (Normal tt, f s).

(** [try { m } catch (err) { h err }] *)
Definition tryCatch {S A} (m : M S A) (h : Value -> M S A) : M S A :=
  fun s =>
    match m s with
    | (Normal a, s') => (Normal a, s')
    | (Throw e, s') => h e s'
    end.

Declare Scope js_scope.
Delimit Scope js_scope with js.
Notation "'let*' x := m 'in' k" := (bind m (fun x => k))
  (at level 10, x name, m at level 100, k at level 200) : js_scope.
Notation "m ;; k" := (bind m (fun _ => k))
  (at level 100, k at level 200, right associativity) : js_scope.
Local Open Scope js_scope.

(** [for (const x of xs) body(x)] *)
Fixpoint forEach {S A} (xs : list A) (body : A -> M S unit) : M S unit :=
  match xs with
  | [] => ret tt
  | x :: rest => body x ;; forEach rest body
  end.

(** [xs.map(f)] where [f] may throw: elements are visited left to
    right and the first throw aborts the traversal. *)
Fixpoint mapM {S A B} (f : A -> M S B) (xs : list A) : M S (list B) :=
  match xs with
  | [] => ret []
  | x :: rest =>
      let* y := f x in
      let* ys := mapM f rest in
      ret (y :: ys)
  end.

(** ** The Koa context and the parameter store *)

(** The part of the Koa context the routing layer touches: the incoming
    request (read by the extractors) and the mutable response fields.
    The response fields are plain mutable fields: what Koa's own setters
    do besides storing the value (checking a status code, deriving a
    status from a body) belongs to Koa and is not modelled. *)
Record Context : Type := mkContext {
  ctx_method : string;
  ctx_url : string;
  ctx_request : Value;
  ctx_status : Value;
  ctx_body : Value
}.

(** [context.status = v] and [context.body = v] *)
Definition withStatus (v : Value) (c : Context) : Context :=
  mkContext (ctx_method c) (ctx_url c) (ctx_request c) v (ctx_body c).
Definition withBody (v : Value) (c : Context) : Context :=
  mkContext (ctx_method c) (ctx_url c) (ctx_request c) (ctx_status c) v.

Definition setStatus (v : Value) : M Context unit := modify (withStatus v).
Definition setBody (v : Value) : M Context unit := modify (withBody v).

(** Modelled from the spec: the request facet a binding reads from
    (the type declarations in src/types are not part of the sources).
    A custom binding carries the user-supplied extractor. *)
Inductive SourceKind : Type :=
  | Body
  | RouteParam
  | Query
  | Header
  | Ctx
  | Custom (extract : Context -> Value -> Completion Value).

(** One entry of the parameter store: the position of the handler
    argument, the facet it is read from and its optional name. *)
Record Param : Type := mkParam {
  index : Z;
  type : SourceKind;
  meta : Value
}.

(** A route handler: the controller method, already bound to its
    controller and awaited.  It may mutate the context it shares with
    the dispatcher. *)
Definition Handler : Type := list Value -> M Context Value.

(** A Koa middleware without its [next] argument, as the router calls
    the function returned by [handleRoute]. *)
Definition RouteMiddleware : Type := M Context unit.

(** The [i]-th positional argument seen by a function called as
    [cb(...args)]: a parameter beyond the supplied ones is [undefined]. *)
Definition argAt (args : list Value) (i : nat) : Value :=
  default VUndefined (args !! i).

(** ** [params.sort((a, b) => a.index - b.index)]

    [Array.prototype.sort] is stable; with this comparator its result
    is the stable ascending arrangement, computed here by insertion. *)
Definition compareParams (a b : Param) : Z := index a - index b.

Fixpoint insertParam (p : Param) (sorted : list Param) : list Param :=
  match sorted with
  | [] => [p]
  | q :: rest =>
      if compareParams p q <=? 0 then p :: q :: rest
      else q :: insertParam p rest
  end.

Definition sortParams (params : list Param) : list Param :=
  foldr insertParam [] params.

(** ** Request dispatch: [handleRoute] *)

Section Dispatch.
(** External collaborators: the extractor of src/handlers/param.ts
    and preact's element predicate and renderer. *)
Variable getParam : Context -> SourceKind -> Value -> Completion Value.
Variable isValidElement : Value -> bool.
Variable render : Value -> Completion Value.

(** [sortedParams.map((param) => getParam(context, param.type, param.meta))] *)
Definition extractArgs (sortedParams : list Param) : M Context (list Value) :=
  mapM (fun param => fun context => (getParam context (type param) (meta param), context))
       sortedParams.

(** [const { data, status = 500 } = E]: the pattern requires [E] to be
    coercible to an object; the default applies to [undefined] only. *)
Definition destructure (E : Value) : Completion (Value * Value) :=
  match getProp E "data" with
  | Throw e => Throw e
  | Normal data =>
      match getProp E "status" with
      | Throw e => Throw e
      | Normal VUndefined => Normal (data, VNum 500)
      | Normal status => Normal (data, status)
      end
  end.

(** [if (res) { if (isValidElement(res)) res = render(res); context.body = res }] *)
Definition respond (res : Value) : M Context unit :=
  if toBoolean res then
    let* res' := (if isValidElement res then lift (render res) else ret res) in
    setBody res'
  else ret tt.

Definition tryBlock (cb : Handler) (sortedParams : list Param) : M Context unit :=
  let* args := extractArgs sortedParams in
  let* res := cb args in
  respond res.

Definition catchBlock (err : Value) : M Context unit :=
  let* ds := lift (destructure err) in
  let data := fst ds in
  let status := snd ds in
  setStatus status ;;
  if toBoolean data then setBody data
  else
    let* message := lift (getProp err "message") in
    setBody (VObj [("status", status);
                   ("message", or_else message
                      (if is500 status then VStr "Internal Server Error" else VStr ""))]).

(** [params] is the result of [paramStore.getParams({controller, propertyKey})]. *)
Definition handleRoute (cb : Handler) (params : list Param) : RouteMiddleware :=
  let sortedParams := sortParams params in
  tryCatch (tryBlock cb sortedParams) catchBlock.
End Dispatch.

(** ** Sample collaborators

    Concrete stand-ins for the external functions, used to run the
    dispatcher on examples. *)

(** Modelled from the spec: the extractor [getParam] of
    src/handlers/param.ts, which is not part of the sources.  The body
    is the parsed request body; route parameters, query values and
    headers are read by name from the matching request facet; a context
    binding receives the context; a custom binding calls its extractor. *)
Definition contextObject (context : Context) : Value :=
  VObj [("method", VStr (ctx_method context));
        ("url", VStr (ctx_url context));
        ("request", ctx_request context);
        ("status", ctx_status context);
        ("body", ctx_body context)].

Definition readFacet (context : Context) (facet : string) (name : Value) : Completion Value :=
  match getProp (ctx_request context) facet with
  | Throw e => Throw e
  | Normal obj =>
      match name with
      | VStr n => getProp obj n
      | _ => Normal obj
      end
  end.

Definition specGetParam (context : Context) (kind : SourceKind) (name : Value)
  : Completion Value :=
  match kind with
  | Body => getProp (ctx_request context) "body"
  | RouteParam => readFacet context "params" name
  | Query => readFacet context "query" name
  | Header => readFacet context "headers" name
  | Ctx => Normal (contextObject context)
  | Custom extract => extract context name
  end.

(** A stand-in for preact: an element is an object with a [props]
    property, and rendering produces markup. *)
Definition demoIsValidElement (v : Value) : bool :=
  match v with
  | VObj fields => toBoolean (lookupField "props" fields)
  | _ => false
  end.

Definition demoRender (v : Value) : Completion Value :=
  match getProp v "type" with
  | Normal (VStr tag) => Normal (VStr ("<" +:+ tag +:+ "></" +:+ tag +:+ ">"))
  | Normal _ => Normal (VStr "")
  | Throw e => Throw e
  end.

Definition demoRequest : Value :=
  VObj [("body", VObj [("name", VStr "Ada")]);
        ("params", VObj [("id", VStr "7")]);
        ("query", VObj [("q", VStr "x")]);
        ("headers", VObj [("accept", VStr "text/html")])].

(** A fresh context: Koa starts a response with status 404 and no body. *)
Definition demoContext : Context :=
  mkContext "GET" "/users/7?q=x" demoRequest (VNum 404) VUndefined.

Definition demoDispatch (cb : Handler) (params : list Param) : RouteMiddleware :=
  handleRoute specGetParam demoIsValidElement demoRender cb params.

(** Handlers used in examples: one that returns the argument it
    received in a given slot, one that returns a fixed value, one that
    throws a fixed value. *)
Definition probe (slot : nat) : Handler := fun args => ret (argAt args slot).
Definition returning (v : Value) : Handler := fun _ => ret v.
Definition throwing (e : Value) : Handler := fun _ => throw e.

(** ** Paths *)

(** [path[i]] for a JavaScript index: out of range is [undefined]. *)
Definition charAt (path : string) (i : Z) : option ascii :=
  if i <? 0 then None else String.get (Z.to_nat i) path.

(** [path.substring(0, last)] for [0 <= last]. *)
Definition substringTo (path : string) (last : Z) : string :=
  String.substring 0 (Z.to_nat last) path.

Definition separator : ascii := "/"%char.

(** The path computation of [configureRouters]:
    [let path = controller.path.concat(endpoint.path)
     const last = path.length - 1
     if (path[last] === '/') path = path.substring(0, last)] *)
Definition effectivePath (basePath subPath : string) : string :=
  let path := basePath +:+ subPath in
  let last := Z.of_nat (String.length path) - 1 in
  match charAt path last with
  | Some c => if Ascii.eqb c separator then substringTo path last else path
  | None => path
  end.

(** Whether a string ends with the separator. *)
Fixpoint endsWithSeparator (s : string) : bool :=
  match s with
  | EmptyString => false
  | String c EmptyString => Ascii.eqb c separator
  | String _ rest => endsWithSeparator rest
  end.

(** The effective path as the specification words it: one trailing
    separator is stripped only when the concatenation ends with a
    separator and is longer than one character. *)
Definition specEffectivePath (basePath subPath : string) : string :=
  let path := basePath +:+ subPath in
  if endsWithSeparator path && (1 <? Z.of_nat (String.length path))
  then substringTo path (Z.of_nat (String.length path) - 1)
  else path.

(** [method.toLowerCase()] on ASCII. *)
Definition lowerAscii (c : ascii) : ascii :=
  let n := nat_of_ascii c in
  if ((65 <=? n) && (n <=? 90))%nat then ascii_of_nat (n + 32) else c.

Fixpoint toLowerCase (s : string) : string :=
  match s with
  | EmptyString => EmptyString
  | String c rest => String (lowerAscii c) (toLowerCase rest)
  end.

(** ** Middleware as resumptions

    A Koa middleware [async (ctx, next) => ...] is a program that reads
    and mutates the context, emits events or log lines through the
    application, awaits [next()] any number of times and finally
    resolves or rejects. *)
Inductive Event : Type :=
  | Emit (name : string) (args : list Value)   (* this.emit(name, ...args) *)
  | Info (line : string).                      (* this.logger.info(line) *)

Inductive Code : Type :=
  | Finish (c : Completion unit)
  | Inspect (k : Context -> Code)
  | Modify (f : Context -> Context) (k : Code)
  | Perform (e : Event) (k : Code)
  | AwaitNext (k : Completion unit -> Code).

(** [p; q]: [q] runs when [p] resolves. *)
Fixpoint seqCode (p q : Code) : Code :=
  match p with
  | Finish (Normal _) => q
  | Finish (Throw e) => Finish (Throw e)
  | Inspect k => Inspect (fun c => seqCode (k c) q)
  | Modify f k => Modify f (seqCode k q)
  | Perform e k => Perform e (seqCode k q)
  | AwaitNext k => AwaitNext (fun r => seqCode (k r) q)
  end.

(** [try { p } catch (error) { h error }] *)
Fixpoint catchCode (p : Code) (h : Value -> Code) : Code :=
  match p with
  | Finish (Normal a) => Finish (Normal a)
  | Finish (Throw e) => h e
  | Inspect k => Inspect (fun c => catchCode (k c) h)
  | Modify f k => Modify f (catchCode k h)
  | Perform e k => Perform e (catchCode k h)
  | AwaitNext k => AwaitNext (fun r => catchCode (k r) h)
  end.

(** A route middleware never calls [next]. *)
Definition ofRoute (h : RouteMiddleware) : Code :=
  Inspect (fun c =>
    match h c with
    | (r, c') => Modify (fun _ => c') (Finish r)
    end).

(** *** The model of koa-compose

    One request runs [compose(middleware)(ctx)].  [run_index] is the
    cursor of koa-compose that rejects a second call of the same
    [next]; [run_trace] is a ghost record of the positions whose
    middleware function has been called, in call order. *)
Record Run : Type := mkRun {
  run_context : Context;
  run_index : Z;
  run_trace : list nat;
  run_output : list Event
}.

Definition Next : Type := M Run unit.

Definition newError (msg : string) : Value :=
  VObj [("name", VStr "Error"); ("message", VStr msg)].

Fixpoint exec (code : Code) (next : Next) (r : Run) : Completion unit * Run :=
  match code with
  | Finish c => (c, r)
  | Inspect k => exec (k (run_context r)) next r
  | Modify f k =>
      exec k next (mkRun (f (run_context r)) (run_index r) (run_trace r) (run_output r))
  | Perform e k =>
      exec k next (mkRun (run_context r) (run_index r) (run_trace r) (run_output r ++ [e]))
  | AwaitNext k =>
      match next r with
      | (c, r') => exec (k c) next r'
      end
  end.

(** [dispatch(i)], where [middleware] is the part of the chain from
    position [i] on. *)
Fixpoint dispatch (middleware : list Code) (i : nat) (r : Run) : Completion unit * Run :=
  if Z.of_nat i <=? run_index r
  then (Throw (newError "next() called multiple times"), r)
  else
    match middleware with
    | [] => (Normal tt, mkRun (run_context r) (Z.of_nat i) (run_trace r) (run_output r))
    | fn :: rest =>
        exec fn (dispatch rest (S i))
          (mkRun (run_context r) (Z.of_nat i) (run_trace r ++ [i]) (run_output r))
    end.

Definition compose (middleware : list Code) (context : Context) : Completion unit * Run :=
  dispatch middleware 0 (mkRun context (-1) [] []).

(** ** The stores and the application object *)

Module Controller.
(** A controller registration: its base path and the methods of the
    controller instance, by property key. *)
Record t : Type := mk {
  path : string;
  target : string -> option Handler
}.
End Controller.

Module Endpoint.
Record t : Type := mk {
  controller : string;
  method : string;
  path : string;
  propertyKey : string
}.

(** The endpoint as the payload of the [configure.router] event. *)
Definition toValue (e : t) : Value :=
  VObj [("controller", VStr (controller e));
        ("method", VStr (method e));
        ("path", VStr (path e));
        ("propertyKey", VStr (propertyKey e))].
End Endpoint.

(** Modelled from the spec: the three stores (src/store is not part of
    the sources), as the decorators have left them when start-up
    begins.  The endpoint store yields its endpoints in registration
    order and looks controllers up by key; the parameter store returns
    the bindings of a controller method; the middleware store yields
    the middleware classes in registration order, each represented by
    the behaviour of [new Middleware().use(ctx, next)]. *)
Record Stores : Type := mkStores {
  controllers : gmap string Controller.t;
  endpoints : list Endpoint.t;
  getParams : string -> string -> list Param;
  middlewareStore : list Code
}.

Definition getController (stores : Stores) (key : string) : option Controller.t :=
  controllers stores !! key.

(** A registered route of the router. *)
Record Route : Type := mkRoute {
  route_verb : string;
  route_path : string;
  route_handler : RouteMiddleware
}.

(** The application object: the middleware of the Koa server, the
    stack of the router, the map from HTTP method to router function,
    the port the server listens on once started, and what the
    application has emitted and logged so far. *)
Record App : Type := mkApp {
  server_middleware : list Code;
  router_stack : list Route;
  methods : gmap string string;
  server_listening : option Z;
  app_events : list Event
}.

Definition supportedMethods : list string :=
  ["GET"; "POST"; "PUT"; "DELETE"; "PATCH"; "HEAD"; "OPTIONS"].

(** The synchronous part of the constructor:
    [for (const method of [...]) this.methods.set(method, this.router[method.toLowerCase()])] *)
Definition newApp : App :=
  mkApp [] []
        (foldl (fun m method => <[method := toLowerCase method]> m) ∅ supportedMethods)
        None [].

(** [this.server.use(fn)] *)
Definition serverUse (fn : Code) : M App unit :=
  modify (fun app =>
    mkApp (server_middleware app ++ [fn]) (router_stack app) (methods app)
          (server_listening app) (app_events app)).

(** [router.call(this.router, path, handler)] *)
Definition routerRegister (verb path : string) (handler : RouteMiddleware) : M App unit :=
  modify (fun app =>
    mkApp (server_middleware app) (router_stack app ++ [mkRoute verb path handler])
          (methods app) (server_listening app) (app_events app)).

Definition perform (e : Event) : M App unit :=
  modify (fun app =>
    mkApp (server_middleware app) (router_stack app) (methods app)
          (server_listening app) (app_events app ++ [e])).

Definition emit (name : string) (args : list Value) : M App unit := perform (Emit name args).
Definition loggerInfo (line : string) : M App unit := perform (Info line).

(** [this.server.listen(port, callback)] *)
Definition serverListen (port : Z) : M App unit :=
  modify (fun app =>
    mkApp (server_middleware app) (router_stack app) (methods app)
          (Some port) (app_events app)).

Section Application.
(** External collaborators: the extractor, preact, koa-bodyparser
    and the two middleware the router produces from its stack. *)
Variable getParam : Context -> SourceKind -> Value -> Completion Value.
Variable isValidElement : Value -> bool.
Variable render : Value -> Completion Value.
Variable bodyParser : list string -> Code.
Variable routerRoutes : list Route -> Code.
Variable routerAllowedMethods : list Route -> Code.

Variable stores : Stores.

(** [async (ctx, next) => { this.logger.info(`REQUEST: ...`); await next() }] *)
Definition requestLogger : Code :=
  Inspect (fun ctx =>
    Perform (Info ("REQUEST: " +:+ ctx_method ctx +:+ " " +:+ ctx_url ctx))
      (AwaitNext (fun r => Finish r))).

(** The [catch] block around a registered middleware. *)
Definition trapError (error : Value) : Code :=
  Perform (Emit "error" [error])
    (match getProp error "status" with
     | Throw e => Finish (Throw e)
     | Normal s =>
         let status := or_else s (VNum 500) in
         Modify (withStatus status)
           (match getProp error "message" with
            | Throw e => Finish (Throw e)
            | Normal m =>
                Modify (withBody
                          (VObj [("error", or_else m (VStr "Internal Server Error"));
                                 ("status", status)]))
                  (Finish (Normal tt))
            end)
     end).

(** [async (ctx, next) => { try { await new Middleware().use(ctx, next); await next() }
                             catch (error) { ... } }] *)
Definition wrapMiddleware (use : Code) : Code :=
  catchCode (seqCode use (AwaitNext (fun r => Finish r))) trapError.

Definition configureMiddlewares : M App unit :=
  serverUse requestLogger ;;
  serverUse (bodyParser ["json"; "form"; "text"]) ;;
  forEach (middlewareStore stores) (fun Middleware =>
    serverUse (wrapMiddleware Middleware)) ;;
  emit "configure.middlewares" [] ;;
  loggerInfo "Configured Middlewares".

(** The body of the loop of [configureRouters]. *)
Definition configureRouter (endpoint : Endpoint.t) : M App unit :=
  match getController stores (Endpoint.controller endpoint) with
  | None =>
      throw (newError ("Controller " +:+ Endpoint.controller endpoint +:+ " not found"))
  | Some controller =>
      let path := effectivePath (Controller.path controller) (Endpoint.path endpoint) in
      let* router := gets (fun app => methods app !! Endpoint.method endpoint) in
      match router with
      | None =>
          throw (newError ("Method " +:+ Endpoint.method endpoint +:+ " not found"))
      | Some verb =>
          match Controller.target controller (Endpoint.propertyKey endpoint) with
          | None =>
              throw (typeError "Cannot read properties of undefined (reading 'bind')")
          | Some cb =>
              routerRegister verb path
                (handleRoute getParam isValidElement render cb
                   (getParams stores (Endpoint.controller endpoint)
                                     (Endpoint.propertyKey endpoint))) ;;
              emit "configure.router" [Endpoint.toValue endpoint]
          end
      end
  end.

Definition configureRouters : M App unit :=
  forEach (endpoints stores) configureRouter ;;
  (let* stack := gets router_stack in serverUse (routerRoutes stack)) ;;
  (let* stack := gets router_stack in serverUse (routerAllowedMethods stack)) ;;
  emit "configure.routers" [] ;;
  loggerInfo "Configured Routers".

(** The asynchronous part of the constructor, once the three loaders
    have imported the modules whose decorators fill the stores:
    [this.configureMiddlewares(); this.configureRouters(); this.emit('app.ready', this)].
    The payload of [app.ready] is the application itself and is left out. *)
Definition bootstrap : M App unit :=
  configureMiddlewares ;;
  configureRouters ;;
  emit "app.ready" [].

(** [start]: listen, then report from the callback. *)
Definition start (port : Z) : M App unit :=
  serverListen port ;;
  emit "app.start" [VNum port] ;;
  loggerInfo ("Server started on port " +:+ pretty port).

(** The request callback of the Koa server. *)
Definition handleRequest (app : App) (context : Context) : Completion unit * Run :=
  compose (server_middleware app) context.
End Application.

(** ** Notions used in the statements *)

(** Ascending order of argument indices. *)
Definition indexLe (a b : Param) : Prop := index a <= index b.

(** The arguments as the specification words them: the value of every
    binding sits at the position given by its index, and every position
    without a binding holds [undefined]. *)
Definition gapsFilled (getParam : Context -> SourceKind -> Value -> Completion Value)
    (params : list Param) (context : Context) (args : list Value) : Prop :=
  forall i : nat,
    match List.find (fun p => index p =? Z.of_nat i) params with
    | Some p => getParam context (type p) (meta p) = Normal (argAt args i)
    | None => argAt args i = VUndefined
    end.

(** Bindings for the third and the first argument of a handler whose
    second argument is not bound. *)
Definition gapParams : list Param :=
  [mkParam 2 Query (VStr "q"); mkParam 0 Body VUndefined].

(** The property [k] of a value other than [null] and [undefined]. *)
Definition field (v : Value) (k : string) : Value :=
  match v with
  | VObj fields => lookupField k fields
  | _ => VUndefined
  end.


(** The last character of a string. *)
Fixpoint lastChar (s : string) : option ascii :=
  match s with
  | EmptyString => None
  | String c EmptyString => Some c
  | String _ rest => lastChar rest
  end.

(** An endpoint resolves when its controller is registered, its method
    is one the constructor mapped, and the controller has the method
    the endpoint names. *)
Definition resolves (stores : Stores) (e : Endpoint.t) : Prop :=
  exists controller,
    getController stores (Endpoint.controller e) = Some controller
    /\ Endpoint.method e ∈ supportedMethods
    /\ is_Some (Controller.target controller (Endpoint.propertyKey e)).

(** What route assembly may change while it walks the endpoints: the
    router stack, and the events by [configure.router] notifications. *)
Definition assembling (app app' : App) : Prop :=
  server_middleware app' = server_middleware app
  /\ methods app' = methods app
  /\ server_listening app' = server_listening app
  /\ exists evs, app_events app' = app_events app ++ evs
       /\ Forall (fun ev => exists v, ev = Emit "configure.router" v) evs.

(** How one call of [dispatch(i)] on a chain of at most [n] further
    middleware moves the cursor and the trace: not at all (the call was
    rejected, or code ran that never called [next]), or the cursor was
    below [i] and the positions [i], [i+1], ... were entered in this
    order. *)
Definition advanced (i n : nat) (r r' : Run) : Prop :=
  (run_index r' = run_index r /\ run_trace r' = run_trace r)
  \/ (run_index r < Z.of_nat i /\ Z.of_nat i <= run_index r'
      /\ exists k, (k <= n)%nat /\ run_trace r' = run_trace r ++ seq i k).


(** A middleware that hands over to [next] as its last action. *)
Inductive Forwards : Code -> Prop :=
  | Forwards_next : Forwards (AwaitNext (fun r => Finish r))
  | Forwards_inspect k : (forall c, Forwards (k c)) -> Forwards (Inspect k)
  | Forwards_modify f k : Forwards k -> Forwards (Modify f k)
  | Forwards_perform e k : Forwards k -> Forwards (Perform e k).

(** ** A sample application *)

(** A body parser that stores nothing and passes on. *)
Definition demoBodyParser (enableTypes : list string) : Code :=
  Inspect (fun _ => AwaitNext (fun r => Finish r)).

(** A router that runs the first route whose verb and path are those
    of the request, and passes on when there is none. *)
Definition demoRouterRoutes (stack : list Route) : Code :=
  Inspect (fun ctx =>
    match List.find (fun route =>
             String.eqb (route_verb route) (toLowerCase (ctx_method ctx))
             && String.eqb (route_path route) (ctx_url ctx)) stack with
    | Some route => ofRoute (route_handler route)
    | None => AwaitNext (fun r => Finish r)
    end).

Definition demoRouterAllowedMethods (stack : list Route) : Code :=
  AwaitNext (fun r => Finish r).

Definition postController : Controller.t :=
  Controller.mk "/posts"
    (fun key => if String.eqb key "list" then Some (returning (VStr "all posts")) else None).

Definition homeController : Controller.t :=
  Controller.mk "/"
    (fun key => if String.eqb key "index" then Some (returning (VStr "welcome")) else None).

Definition listPosts : Endpoint.t := Endpoint.mk "PostController" "GET" "/" "list".
Definition home : Endpoint.t := Endpoint.mk "HomeController" "GET" "" "index".
Definition showUser : Endpoint.t := Endpoint.mk "UserController" "GET" "/:id" "show".

(** Two middleware that count in the response status: the first sets
    it to 1, the second adds one to what it finds. *)
Definition countOne : Code := Modify (withStatus (VNum 1)) (Finish (Normal tt)).
Definition countUp : Code :=
  Inspect (fun ctx =>
    Modify (withStatus (match ctx_status ctx with VNum n => VNum (n + 1) | _ => VNaN end))
      (Finish (Normal tt))).

(** [UserController] is referenced by an endpoint but never registered. *)
Definition demoStores : Stores :=
  mkStores {["PostController" := postController; "HomeController" := homeController]}
           [listPosts; showUser]
           (fun _ _ => [])
           [countOne; countUp].

Definition demoBootstrap : M App unit :=
  bootstrap specGetParam demoIsValidElement demoRender
            demoBodyParser demoRouterRoutes demoRouterAllowedMethods demoStores.

(** ** Loading the modules

    Before it configures anything, the constructor imports every module
    below the providers, controllers and middleware directories; the
    decorators of an imported module write to the stores. *)

(** The options of [create]: the port, and the optional root directory. *)
Record CreateOptions : Type := mkOptions {
  opt_port : Z;
  opt_root : option string
}.

(** [this.path(path)]:
    [this.options.root ? this.options.root.concat('/', path) : path] *)
Definition appPath (options : CreateOptions) (path : string) : string :=
  match opt_root options with
  | Some root => if String.eqb root "" then path else root +:+ "/" +:+ path
  | None => path
  end.

(** The application object together with the module-level stores. *)
Record Boot : Type := mkBoot {
  boot_app : App;
  boot_stores : Stores
}.

(** A step on the application object alone. *)
Definition onApp {A} (m : M App A) : M Boot A :=
  fun b =>
    match m (boot_app b) with
    | (c, app') => (c, mkBoot app' (boot_stores b))
    end.

(** A step that writes to the stores alone. *)
Definition onStores {A} (m : M Stores A) : M Boot A :=
  fun b =>
    match m (boot_stores b) with
    | (c, stores') => (c, mkBoot (boot_app b) stores')
    end.

(** A step on the application object that reads the stores. *)
Definition readingStores {A} (m : Stores -> M App A) : M Boot A :=
  fun b => onApp (m (boot_stores b)) b.

Section Loading.
(** External collaborators: the file system, the directory scanner of
    src/utils and the dynamic [import], which runs the decorators of
    the module it loads: an import writes to the stores or throws.
    (The module cache of the runtime, which makes a second import of
    the same file a no-op, is not modelled; a scan lists a file once.) *)
Variable existsSync : string -> bool.
Variable readdirRecursive : string -> Completion (list string).
Variable importModule : string -> M Stores unit.
Variable getParam : Context -> SourceKind -> Value -> Completion Value.
Variable isValidElement : Value -> bool.
Variable render : Value -> Completion Value.
Variable bodyParser : list string -> Code.
Variable routerRoutes : list Route -> Code.
Variable routerAllowedMethods : list Route -> Code.

Variable options : CreateOptions.

(** [for (const file of files) await import(file)] *)
Definition importAll (files : list string) : M Boot unit :=
  forEach files (fun file => onStores (importModule file)).

Definition loadProviders : M Boot unit :=
  let providersPath := appPath options "providers" in
  if String.eqb providersPath "" then ret tt
  else
    let* providers := lift (readdirRecursive providersPath) in
    importAll providers ;;
    onApp (emit "load.providers.done" []) ;;
    onApp (loggerInfo ("Loaded " +:+ pretty (Z.of_nat (length providers)) +:+ " Providers")).

Definition loadControllers : M Boot unit :=
  let controllersPath := appPath options "controllers" in
  if negb (existsSync controllersPath) then ret tt
  else
    let* files := lift (readdirRecursive controllersPath) in
    importAll files ;;
    onApp (emit "load.controllers.done" []) ;;
    onApp (loggerInfo ("Loaded " +:+ pretty (Z.of_nat (length files)) +:+ " controllers")).

Definition loadMiddleware : M Boot unit :=
  let middlewarePath := appPath options "middleware" in
  if negb (existsSync middlewarePath) then ret tt
  else
    let* files := lift (readdirRecursive middlewarePath) in
    importAll files ;;
    onApp (emit "load.middleware.done" []) ;;
    onApp (loggerInfo ("Loadded " +:+ pretty (Z.of_nat (length files)) +:+ " Middleware")).

(** The asynchronous part of the constructor in full:
    [await this.loadProviders(); await this.loadControllers(); await this.loadMiddleware();
     this.configureMiddlewares(); this.configureRouters(); this.emit('app.ready', this)] *)
Definition startup : M Boot unit :=
  loadProviders ;;
  loadControllers ;;
  loadMiddleware ;;
  readingStores (configureMiddlewares bodyParser) ;;
  readingStores (configureRouters getParam isValidElement render
                   routerRoutes routerAllowedMethods) ;;
  onApp (emit "app.ready" []).
End Loading.

(** The response the trap around a registered middleware writes for
    the error it caught. *)
Definition trapStatus (err : Value) : Value := or_else (field err "status") (VNum 500).
Definition trapBody (err : Value) : Value :=
  VObj [("error", or_else (field err "message") (VStr "Internal Server Error"));
        ("status", trapStatus err)].

(** The run after the trap has handled [err]. *)
Definition trapped (err : Value) (r : Run) : Run :=
  mkRun (withBody (trapBody err) (withStatus (trapStatus err) (run_context r)))
        (run_index r) (run_trace r) (run_output r ++ [Emit "error" [err]]).

(** A sample file system: a controllers directory with two modules, no
    middleware directory, an empty providers directory. *)
Definition demoOptions : CreateOptions := mkOptions 3000 (Some "/srv/app").

Definition demoExistsSync (path : string) : bool :=
  String.eqb path "/srv/app/controllers".

Definition demoReaddirRecursive (path : string) : Completion (list string) :=
  if String.eqb path "/srv/app/controllers"
  then Normal ["/srv/app/controllers/home.ts"; "/srv/app/controllers/posts.ts"]
  else if String.eqb path "/srv/app/providers" then Normal []
  else Throw (newError ("ENOENT: no such file or directory, scandir '" +:+ path +:+ "'")).

(** Importing a controller module registers the controller and its
    endpoint. *)
Definition registerModule (key : string) (controller : Controller.t) (e : Endpoint.t)
  : M Stores unit :=
  modify (fun stores =>
    mkStores (<[key := controller]> (controllers stores))
             (endpoints stores ++ [e])
             (getParams stores)
             (middlewareStore stores)).

Definition demoImportModule (file : string) : M Stores unit :=
  if String.eqb file "/srv/app/controllers/home.ts"
  then registerModule "HomeController" homeController home
  else if String.eqb file "/srv/app/controllers/posts.ts"
  then registerModule "PostController" postController listPosts
  else throw (newError ("Cannot find module '" +:+ file +:+ "'")).

Definition emptyStores : Stores := mkStores ∅ [] (fun _ _ => []) [].

Definition demoStartup : M Boot unit :=
  startup demoExistsSync demoReaddirRecursive demoImportModule
          specGetParam demoIsValidElement demoRender
          demoBodyParser demoRouterRoutes demoRouterAllowedMethods demoOptions.

(** Stores in which every endpoint resolves. *)
Definition goodStores : Stores :=
  mkStores {["PostController" := postController; "HomeController" := homeController]}
           [listPosts; home]
           (fun _ _ => [])
           [countOne; countUp].


(** The route that assembly registers for an endpoint: the lower-case
    method, the effective path, and the dispatcher of the controller
    method with the bindings of that method. *)
Definition routeFor (getParam : Context -> SourceKind -> Value -> Completion Value)
    (isValidElement : Value -> bool) (render : Value -> Completion Value)
    (stores : Stores) (e : Endpoint.t) (route : Route) : Prop :=
  exists controller cb,
    getController stores (Endpoint.controller e) = Some controller
    /\ Controller.target controller (Endpoint.propertyKey e) = Some cb
    /\ route
       = mkRoute (toLowerCase (Endpoint.method e))
           (effectivePath (Controller.path controller) (Endpoint.path e))
           (handleRoute getParam isValidElement render cb
              (getParams stores (Endpoint.controller e) (Endpoint.propertyKey e))).

(** The notification of a registered endpoint. *)
Definition routerEvent (e : Endpoint.t) : Event :=
  Emit "configure.router" [Endpoint.toValue e].

(** What the loaders leave alone on the application object. *)
Definition sameServer (b b' : Boot) : Prop :=
  server_middleware (boot_app b') = server_middleware (boot_app b)
  /\ router_stack (boot_app b') = router_stack (boot_app b)
  /\ methods (boot_app b') = methods (boot_app b)
  /\ server_listening (boot_app b') = server_listening (boot_app b).

(** A binding whose extractor throws. *)
Definition failingParam : Param :=
  mkParam 0 (Custom (fun _ _ => Throw (newError "bad token"))) VUndefined.

(** The sample controllers with a given list of endpoints. *)
Definition storesWith (es : list Endpoint.t) : Stores :=
  mkStores {["PostController" := postController; "HomeController" := homeController]}
           es (fun _ _ => []) [countOne; countUp].

(** An endpoint with a lower-case method, and one that names a method
    the controller does not have. *)
Definition lowerCaseEndpoint : Endpoint.t := Endpoint.mk "PostController" "get" "/all" "list".

(** A file system without any of the three directories, whose scanner
    answers with no files; and a scan of the controllers directory that
    lists a module that cannot be imported. *)
Definition bareExistsSync (path : string) : bool := false.
Definition bareReaddirRecursive (path : string) : Completion (list string) := Normal [].
Definition brokenReaddirRecursive (path : string) : Completion (list string) :=
  Normal ["/srv/app/controllers/home.ts"; "/srv/app/controllers/broken.ts";
          "/srv/app/controllers/posts.ts"].

(** The state in which the constructor starts loading. *)
Definition freshBoot : Boot := mkBoot newApp emptyStores.

Definition enteredRun : Run := mkRun demoContext 0 [0%nat] [].

(** * Properties *)

(** ** The argument order *)

Lemma insertParam_perm p l : insertParam p l ≡ₚ p :: l.
Proof.
  induction l as [|q l IH]; simpl; [done|].
  destruct (compareParams p q <=? 0); [done|].
  rewrite IH. apply Permutation_swap.
Qed.

Lemma sortParams_perm params : sortParams params ≡ₚ params.
Proof.
  induction params as [|p params IH]; simpl; [done|].
  rewrite insertParam_perm. by f_equiv.
Qed.

Lemma sortParams_length params : length (sortParams params) = length params.
Proof. apply Permutation_length, sortParams_perm. Qed.

Lemma insertParam_sorted p l :
  StronglySorted indexLe l -> StronglySorted indexLe (insertParam p l).
Proof.
  induction 1 as [|q l Hl IH Hq]; simpl.
  - repeat constructor.
  - unfold compareParams.
    destruct (Z.leb_spec (index p - index q) 0) as [Hle|Hgt].
    + constructor; [by constructor|].
      constructor; [unfold indexLe; lia|].
      eapply Forall_impl; [exact Hq|]. unfold indexLe. intros; lia.
    + constructor; [done|].
      rewrite insertParam_perm. constructor; [unfold indexLe; lia | done].
Qed.

Lemma sortParams_sorted params : StronglySorted indexLe (sortParams params).
Proof.
  induction params as [|p params IH]; simpl; [constructor|].
  by apply insertParam_sorted.
Qed.

(** The sort is stable: bindings with the same index keep their
    registration order. *)
Lemma insertParam_filter i p l :
  filter (fun q => index q = i) (insertParam p l)
  = filter (fun q => index q = i) (p :: l).
Proof.
  induction l as [|q l IH]; simpl; [done|].
  unfold compareParams.
  destruct (Z.leb_spec (index p - index q) 0) as [Hle|Hgt]; [done|].
  rewrite filter_cons, IH, !filter_cons.
  destruct (decide (index q = i)), (decide (index p = i)); try done; lia.
Qed.

Lemma sortParams_stable i params :
  filter (fun q => index q = i) (sortParams params)
  = filter (fun q => index q = i) params.
Proof.
  induction params as [|p params IH]; simpl; [done|].
  by rewrite insertParam_filter, !filter_cons, IH.
Qed.

(** ** Running the monad *)

Lemma bind_normal {S A B} (m : M S A) (k : A -> M S B) s a s' :
  m s = (Normal a, s') -> bind m k s = k a s'.
Proof. unfold bind. by intros ->. Qed.

Lemma bind_throw {S A B} (m : M S A) (k : A -> M S B) s e s' :
  m s = (Throw e, s') -> bind m k s = (Throw e, s').
Proof. unfold bind. by intros ->. Qed.

Section DispatchFacts.
Variable getParam : Context -> SourceKind -> Value -> Completion Value.
Variable isValidElement : Value -> bool.
Variable render : Value -> Completion Value.

(** Extraction does not touch the context, and yields one value per
    binding, in the order of the bindings. *)
Lemma extractArgs_inv l context args context' :
  extractArgs getParam l context = (Normal args, context') ->
  context' = context /\
  Forall2 (fun p v => getParam context (type p) (meta p) = Normal v) l args.
Proof.
  revert args. induction l as [|p l IH]; intros args; simpl.
  - intros [= <- <-]. by split.
  - unfold extractArgs in *. simpl. unfold bind at 1.
    destruct (getParam context (type p) (meta p)) as [v|e] eqn:Hv; [|done].
    unfold bind at 1.
    destruct (mapM _ l context) as [[ys|e] c1] eqn:Hys; [|done].
    intros [= <- <-].
    destruct (IH ys eq_refl) as [-> HF]. split; [done|].
    by constructor.
Qed.

Lemma handleRoute_unfold cb params context args :
  extractArgs getParam (sortParams params) context = (Normal args, context) ->
  handleRoute getParam isValidElement render cb params context
  = tryCatch (let* res := cb args in respond isValidElement render res)
             (catchBlock) context.
Proof.
  intros Hargs. unfold handleRoute, tryCatch, tryBlock.
  by rewrite (bind_normal _ _ _ _ _ Hargs).
Qed.
End DispatchFacts.

Lemma seqZ_sorted n m : StronglySorted Z.le (Z.of_nat <$> seq n m).
Proof.
  revert n. induction m as [|m IH]; intros n; csimpl; constructor; [apply IH|].
  apply Forall_fmap, Forall_forall. intros k Hk%elem_of_seq. simpl. lia.
Qed.

(** C1 (amended). Request Dispatch calls the handler with one argument
    per binding, in ascending argumentIndex order and densely packed:
    the k-th argument is the value extracted for the binding with the
    k-th smallest index, and no [undefined] is inserted for an index
    without a binding.  An extracted value therefore lands at its
    declared index when the bound indices are exactly 0 .. n-1. *)
Theorem handleRoute_arguments
    (getParam : Context -> SourceKind -> Value -> Completion Value)
    (isValidElement : Value -> bool) (render : Value -> Completion Value)
    (cb : Handler) (params : list Param) (context : Context) (args : list Value) :
  extractArgs getParam (sortParams params) context = (Normal args, context) ->
  handleRoute getParam isValidElement render cb params context
    = tryCatch (let* res := cb args in respond isValidElement render res)
               (catchBlock) context
  /\ StronglySorted indexLe (sortParams params)
  /\ sortParams params ≡ₚ params
  /\ length args = length params
  /\ (forall k p, sortParams params !! k = Some p ->
        getParam context (type p) (meta p) = Normal (argAt args k))
  /\ (index <$> params ≡ₚ Z.of_nat <$> seq 0 (length params) ->
      forall p, p ∈ params ->
        getParam context (type p) (meta p) = Normal (argAt args (Z.to_nat (index p)))).
Proof.
  intros Hargs.
  destruct (extractArgs_inv _ _ _ _ _ Hargs) as [_ HF].
  assert (Hlen : length args = length params).
  { rewrite <- (Forall2_length _ _ _ HF). apply sortParams_length. }
  assert (Hslot : forall k p, sortParams params !! k = Some p ->
            getParam context (type p) (meta p) = Normal (argAt args k)).
  { intros k p Hk.
    destruct (Forall2_lookup_l _ _ _ _ _ HF Hk) as (v & Hv & Hp).
    unfold argAt. by rewrite Hv. }
  split; [by apply handleRoute_unfold|].
  split; [apply sortParams_sorted|].
  split; [apply sortParams_perm|].
  split; [done|]. split; [done|].
  intros Hdense p Hp.
  assert (Hidx : index <$> sortParams params = Z.of_nat <$> seq 0 (length params)).
  { apply (StronglySorted_unique Z.le).
    - eapply StronglySorted_fmap; [|apply sortParams_sorted]. done.
    - apply seqZ_sorted.
    - by rewrite sortParams_perm. }
  rewrite <- (sortParams_perm params) in Hp.
  apply list_elem_of_lookup in Hp as [k Hk].
  assert (Hik : (index <$> sortParams params) !! k = Some (index p))
    by (by rewrite list_lookup_fmap, Hk).
  rewrite Hidx, list_lookup_fmap in Hik.
  destruct (seq 0 (length params) !! k) as [j|] eqn:Hj; [|done].
  apply lookup_seq in Hj as [-> _]. simpl in Hik.
  injection Hik as <-. rewrite Nat2Z.id. by apply Hslot.
Qed.

Lemma handleRoute_arguments_witness :
  let params := [mkParam 1 Query (VStr "q"); mkParam 0 Body VUndefined] in
  let args := [VObj [("name", VStr "Ada")]; VStr "x"] in
  extractArgs specGetParam (sortParams params) demoContext = (Normal args, demoContext)
  /\ index <$> params ≡ₚ Z.of_nat <$> seq 0 (length params)
  /\ forall p, p ∈ params ->
       specGetParam demoContext (type p) (meta p) = Normal (argAt args (Z.to_nat (index p))).
Proof.
  intros params args.
  split; [reflexivity|]. split; [apply Permutation_swap|].
  apply (handleRoute_arguments specGetParam demoIsValidElement demoRender (probe 1)
           params demoContext args eq_refl).
  apply Permutation_swap.
Defined.

(** C1 (as stated) fails: with bindings for the arguments 0 and 2 only,
    the handler receives two arguments; its slot 1 holds the value bound
    to argument 2 and its slot 2 is empty. *)
Lemma handleRoute_gaps_counterexample :
  extractArgs specGetParam (sortParams gapParams) demoContext
    = (Normal [VObj [("name", VStr "Ada")]; VStr "x"], demoContext)
  /\ ~ gapsFilled specGetParam gapParams demoContext [VObj [("name", VStr "Ada")]; VStr "x"]
  /\ demoDispatch (probe 1) gapParams demoContext
       = (Normal tt, withBody (VStr "x") demoContext)
  /\ demoDispatch (probe 2) gapParams demoContext = (Normal tt, demoContext).
Proof.
  split; [reflexivity|]. split; [|split; reflexivity].
  intros H. specialize (H 1%nat). simpl in H. discriminate H.
Qed.

(** ** The response *)

Lemma getProp_field v k :
  v <> VNull -> v <> VUndefined -> getProp v k = Normal (field v k).
Proof. by destruct v. Qed.

Section ResponseFacts.
Variable getParam : Context -> SourceKind -> Value -> Completion Value.
Variable isValidElement : Value -> bool.
Variable render : Value -> Completion Value.

Let dispatchOf := handleRoute getParam isValidElement render.

Lemma handleRoute_returned cb params context args res context1 :
  extractArgs getParam (sortParams params) context = (Normal args, context) ->
  cb args context = (Normal res, context1) ->
  dispatchOf cb params context
  = tryCatch (respond isValidElement render res) catchBlock context1.
Proof.
  intros Hargs Hcb. unfold dispatchOf.
  rewrite (handleRoute_unfold _ _ _ _ _ _ _ Hargs).
  unfold tryCatch. by rewrite (bind_normal _ _ _ _ _ Hcb).
Qed.



Lemma catchBlock_nullish err context :
  err = VNull \/ err = VUndefined ->
  catchBlock err context
  = (Throw (typeError "Cannot read properties of null or undefined (reading 'data')"),
     context).
Proof. by intros [-> | ->]. Qed.
End ResponseFacts.

Section DispatchClaims.
Variable getParam : Context -> SourceKind -> Value -> Completion Value.
Variable isValidElement : Value -> bool.
Variable render : Value -> Completion Value.


(** C5 (amended). When the handler returns a truthy value V that is not
  a renderable element, the response body is exactly V and nothing
  else of the context changes. *)
Theorem handleRoute_returns_truthy cb params context args V context1 :
extractArgs getParam (sortParams params) context = (Normal args, context) ->
cb args context = (Normal V, context1) ->
toBoolean V = true ->
isValidElement V = false ->
handleRoute getParam isValidElement render cb params context
= (Normal tt, withBody V context1)
/\ ctx_body (snd (handleRoute getParam isValidElement render cb params context)) = V.
Proof.
intros Hargs Hcb Htruthy Helem.
rewrite (handleRoute_returned _ _ _ _ _ _ _ _ _ Hargs Hcb).
unfold tryCatch, respond. rewrite Htruthy, Helem. done.
Qed.


(** C9. When the handler returns no value, dispatch leaves the context
  as the handler left it: the response body after dispatch is the
  body at the moment the handler returned. *)
Theorem handleRoute_returns_undefined cb params context args context1 :
extractArgs getParam (sortParams params) context = (Normal args, context) ->
cb args context = (Normal VUndefined, context1) ->
handleRoute getParam isValidElement render cb params context = (Normal tt, context1)
/\ ctx_body (snd (handleRoute getParam isValidElement render cb params context))
   = ctx_body context1.
Proof.
intros Hargs Hcb.
by rewrite (handleRoute_returned _ _ _ _ _ _ _ _ _ Hargs Hcb).
Qed.

(** C10. When the handler returns a defined but falsy value (0, false,
  the empty string, null), dispatch does not assign it: the context,
  and with it the response body, is left as the handler left it,
  which is the outcome of the same handler returning no value. *)
Theorem handleRoute_returns_falsy cb params context args v context1 :
extractArgs getParam (sortParams params) context = (Normal args, context) ->
cb args context = (Normal v, context1) ->
v ∈ [VNum 0; VBool false; VStr ""; VNull] \/ toBoolean v = false ->
handleRoute getParam isValidElement render cb params context = (Normal tt, context1)
/\ ctx_body (snd (handleRoute getParam isValidElement render cb params context))
   = ctx_body context1
/\ handleRoute getParam isValidElement render cb params context
   = handleRoute getParam isValidElement render
       (fun a => (cb a ;; ret VUndefined)) params context.
Proof.
intros Hargs Hcb Hv.
assert (Hfalsy : toBoolean v = false).
{ destruct Hv as [Hin|]; [|done].
  repeat (apply elem_of_cons in Hin as [->|Hin]; [done|]).
  by apply elem_of_nil in Hin. }
assert (Hcb' : (cb args ;; ret VUndefined) context = (Normal VUndefined, context1)).
{ by rewrite (bind_normal _ _ _ _ _ Hcb). }
rewrite (handleRoute_returned _ _ _ _ _ _ _ _ _ Hargs Hcb).
rewrite (handleRoute_returned _ _ _ (fun a => (cb a ;; ret VUndefined)) _ _ _ _ _ Hargs Hcb').
unfold tryCatch, respond. rewrite Hfalsy. done.
Qed.
End DispatchClaims.



(** C4 (the code at the failing input).  A handler that throws [null],
    or rejects with [undefined], makes the catch block itself throw a
    [TypeError]: dispatch rejects and has set neither status nor body. *)
Theorem handleRoute_throw_null_escapes :
  demoDispatch (throwing VNull) [] demoContext
    = (Throw (typeError "Cannot read properties of null or undefined (reading 'data')"),
       demoContext)
  /\ demoDispatch (throwing VUndefined) [] demoContext
    = (Throw (typeError "Cannot read properties of null or undefined (reading 'data')"),
       demoContext).
Proof. split; reflexivity. Qed.

Lemma handleRoute_returns_truthy_witness :
  let V := VObj [("id", VNum 7)] in
  extractArgs specGetParam (sortParams []) demoContext = (Normal [], demoContext)
  /\ returning V [] demoContext = (Normal V, demoContext)
  /\ toBoolean V = true
  /\ demoIsValidElement V = false
  /\ demoDispatch (returning V) [] demoContext = (Normal tt, withBody V demoContext)
  /\ ctx_body (snd (demoDispatch (returning V) [] demoContext)) = V.
Proof.
  intros V. do 4 (split; [reflexivity|]).
  exact (handleRoute_returns_truthy specGetParam demoIsValidElement demoRender
           (returning V) [] demoContext [] V demoContext
           eq_refl eq_refl eq_refl eq_refl).
Defined.

(** C5 (as stated) fails: the plain value 0 is not renderable, yet a
    handler returning it leaves the body as it was. *)
Lemma handleRoute_returns_zero_counterexample :
  demoIsValidElement (VNum 0) = false
  /\ demoDispatch (returning (VNum 0)) [] demoContext = (Normal tt, demoContext)
  /\ ctx_body (snd (demoDispatch (returning (VNum 0)) [] demoContext)) <> VNum 0.
Proof. repeat split; (reflexivity || discriminate). Qed.


Lemma handleRoute_returns_undefined_witness :
  let manual : Handler := fun _ => (setBody (VStr "set by hand") ;; ret VUndefined) in
  extractArgs specGetParam (sortParams []) demoContext = (Normal [], demoContext)
  /\ manual [] demoContext = (Normal VUndefined, withBody (VStr "set by hand") demoContext)
  /\ demoDispatch manual [] demoContext
     = (Normal tt, withBody (VStr "set by hand") demoContext)
  /\ ctx_body (snd (demoDispatch manual [] demoContext)) = VStr "set by hand".
Proof.
  intros manual. split; [reflexivity|]. split; [reflexivity|].
  exact (handleRoute_returns_undefined specGetParam demoIsValidElement demoRender
           manual [] demoContext [] _ eq_refl eq_refl).
Defined.

Lemma handleRoute_returns_falsy_witness :
  extractArgs specGetParam (sortParams []) demoContext = (Normal [], demoContext)
  /\ returning (VStr "") [] demoContext = (Normal (VStr ""), demoContext)
  /\ toBoolean (VStr "") = false
  /\ demoDispatch (returning (VStr "")) [] demoContext = (Normal tt, demoContext)
  /\ ctx_body (snd (demoDispatch (returning (VStr "")) [] demoContext))
     = ctx_body demoContext
  /\ demoDispatch (returning (VStr "")) [] demoContext
     = demoDispatch (fun a => (returning (VStr "") a ;; ret VUndefined)) [] demoContext.
Proof.
  do 3 (split; [reflexivity|]).
  exact (handleRoute_returns_falsy specGetParam demoIsValidElement demoRender
           (returning (VStr "")) [] demoContext [] (VStr "") demoContext
           eq_refl eq_refl (or_intror eq_refl)).
Defined.

(** ** The effective path *)

Lemma charAt_last s : charAt s (Z.of_nat (String.length s) - 1) = lastChar s.
Proof.
  unfold charAt. induction s as [|c s IH]; [done|].
  destruct s as [|d s]; [done|].
  change (String.length (String c (String d s))) with (S (String.length (String d s))).
  destruct (Z.ltb_spec (Z.of_nat (S (String.length (String d s))) - 1) 0) as [Hlt|_];
    [simpl in Hlt; lia|].
  replace (Z.to_nat (Z.of_nat (S (String.length (String d s))) - 1))
    with (S (Z.to_nat (Z.of_nat (String.length (String d s)) - 1)))
    by (simpl String.length; lia).
  change (lastChar (String c (String d s))) with (lastChar (String d s)).
  rewrite <- IH.
  destruct (Z.ltb_spec (Z.of_nat (String.length (String d s)) - 1) 0) as [Hlt|_];
    [simpl in Hlt; lia|].
  reflexivity.
Qed.

Lemma endsWithSeparator_lastChar s :
  endsWithSeparator s
  = match lastChar s with Some c => Ascii.eqb c separator | None => false end.
Proof.
  induction s as [|c s IH]; [done|]. destruct s as [|d s]; [done|]. exact IH.
Qed.

Lemma substringTo_last s c :
  lastChar s = Some c ->
  s = substringTo s (Z.of_nat (String.length s) - 1) +:+ String c EmptyString.
Proof.
  unfold substringTo. induction s as [|a s IH]; [done|].
  destruct s as [|d s].
  - simpl. by intros [= ->].
  - intros Hlast. change (lastChar (String d s) = Some c) in Hlast.
    replace (Z.to_nat (Z.of_nat (String.length (String a (String d s))) - 1))
      with (S (Z.to_nat (Z.of_nat (String.length (String d s)) - 1)))
      by (simpl String.length; lia).
    change (String a (String d s)
            = String a (String.substring 0
                          (Z.to_nat (Z.of_nat (String.length (String d s)) - 1))
                          (String d s) +:+ String c EmptyString)).
    f_equal. by apply IH.
Qed.

Lemma effectivePath_cases basePath subPath :
  effectivePath basePath subPath
  = if endsWithSeparator (basePath +:+ subPath)
    then substringTo (basePath +:+ subPath)
           (Z.of_nat (String.length (basePath +:+ subPath)) - 1)
    else basePath +:+ subPath.
Proof.
  unfold effectivePath. rewrite charAt_last, endsWithSeparator_lastChar.
  by destruct (lastChar (basePath +:+ subPath)).
Qed.

Lemma endsWithSeparator_snoc s c :
  endsWithSeparator (s +:+ String c EmptyString) = Ascii.eqb c separator.
Proof.
  induction s as [|a s IH]; [done|].
  simpl. rewrite <- IH. by destruct s.
Qed.

Lemma snoc_inj s1 s2 c1 c2 :
  s1 +:+ String c1 EmptyString = s2 +:+ String c2 EmptyString -> s1 = s2 /\ c1 = c2.
Proof.
  revert s2. induction s1 as [|a s1 IH]; intros [|b s2]; simpl.
  - by intros [= ->].
  - intros [= -> H]. by destruct s2.
  - intros [= -> H]. by destruct s1.
  - intros [= -> H]. destruct (IH _ H) as [-> ->]. done.
Qed.

Lemma endsWithSeparator_inv s :
  endsWithSeparator s = true -> exists rest, s = rest +:+ "/".
Proof.
  rewrite endsWithSeparator_lastChar.
  destruct (lastChar s) as [c|] eqn:Hlast; [|done].
  intros Hc%Ascii.eqb_eq. subst c.
  eexists. by apply substringTo_last.
Qed.

Lemma append_snoc_assoc s c d :
  (s +:+ String c EmptyString) +:+ String d EmptyString = s +:+ String c (String d EmptyString).
Proof.
  induction s as [|a s IH]; [done|].
  change (String a ((s +:+ String c EmptyString) +:+ String d EmptyString)
          = String a (s +:+ String c (String d EmptyString))).
  by f_equal.
Qed.

(** The effective path, described by what it does to the
    concatenation of the two paths. *)
Lemma effectivePath_spec basePath subPath :
  let full := basePath +:+ subPath in
  (endsWithSeparator full = true -> full = effectivePath basePath subPath +:+ "/")
  /\ (endsWithSeparator full = false -> effectivePath basePath subPath = full)
  /\ (endsWithSeparator (effectivePath basePath subPath) = true
      <-> exists rest, full = rest +:+ "//")
  /\ (full = "/" -> effectivePath basePath subPath = "")
  /\ (full <> "/" -> effectivePath basePath subPath = specEffectivePath basePath subPath).
Proof.
  intros full.
  assert (Hstrip : endsWithSeparator full = true ->
            full = effectivePath basePath subPath +:+ "/").
  { intros Hends. rewrite effectivePath_cases. fold full. rewrite Hends.
    rewrite endsWithSeparator_lastChar in Hends.
    destruct (lastChar full) as [c|] eqn:Hlast; [|done].
    apply Ascii.eqb_eq in Hends. subst c. by apply substringTo_last. }
  assert (Hkeep : endsWithSeparator full = false -> effectivePath basePath subPath = full).
  { intros Hends. rewrite effectivePath_cases. fold full. by rewrite Hends. }
  split; [done|]. split; [done|]. split; [|split].
  - split.
    + intros Hres. destruct (endsWithSeparator full) eqn:Hends.
      * destruct (endsWithSeparator_inv _ Hres) as [rest Hrest].
        exists rest. rewrite (Hstrip eq_refl), Hrest. apply append_snoc_assoc.
      * rewrite (Hkeep eq_refl) in Hres. congruence.
    + intros [rest Hfull].
      assert (Hends : endsWithSeparator full = true).
      { rewrite Hfull, <- append_snoc_assoc. apply endsWithSeparator_snoc. }
      specialize (Hstrip Hends). rewrite Hfull, <- append_snoc_assoc in Hstrip.
      apply snoc_inj in Hstrip as [<- _]. apply endsWithSeparator_snoc.
  - intros Hfull. rewrite effectivePath_cases. fold full. by rewrite Hfull.
  - intros Hfull. rewrite effectivePath_cases. unfold specEffectivePath. fold full.
    destruct (endsWithSeparator full) eqn:Hends; [|done].
    destruct (Z.ltb_spec 1 (Z.of_nat (String.length full))) as [|Hshort]; [done|].
    exfalso. apply Hfull.
    destruct full as [|c [|d rest]]; [done| |simpl in Hshort; lia].
    simpl in Hends. apply Ascii.eqb_eq in Hends. by subst c.
Qed.

(** ** Start-up *)

Lemma assembling_refl app : assembling app app.
Proof.
  repeat split. exists []. split; [by rewrite app_nil_r | constructor].
Qed.

Lemma assembling_trans a b c : assembling a b -> assembling b c -> assembling a c.
Proof.
  intros (Hm1 & Hv1 & Hl1 & evs1 & He1 & HF1) (Hm2 & Hv2 & Hl2 & evs2 & He2 & HF2).
  repeat split; [congruence..|].
  exists (evs1 ++ evs2). split; [by rewrite He2, He1, app_assoc|].
  by apply Forall_app.
Qed.

Lemma forEach_app {S A} (body : A -> M S unit) xs ys s s1 :
  forEach xs body s = (Normal tt, s1) ->
  forEach (xs ++ ys) body s = forEach ys body s1.
Proof.
  revert s. induction xs as [|x xs IH]; intros s; simpl.
  - by intros [= ->].
  - unfold bind at 1 2. destruct (body x s) as [[[]|e] s']; [|done]. apply IH.
Qed.

Lemma newApp_methods m :
  m ∈ supportedMethods <-> is_Some (methods newApp !! m).
Proof.
  unfold newApp, supportedMethods. simpl. split.
  - intros Hm. repeat (apply elem_of_cons in Hm as [->|Hm]; [by eexists|]).
    by apply elem_of_nil in Hm.
  - intros [v Hv].
    repeat (apply lookup_insert_Some in Hv as [[<- _]|[_ Hv]];
            [repeat ((by left) || right)|]).
    by rewrite lookup_empty in Hv.
Qed.

Section ApplicationFacts.
Variable getParam : Context -> SourceKind -> Value -> Completion Value.
Variable isValidElement : Value -> bool.
Variable render : Value -> Completion Value.
Variable bodyParser : list string -> Code.
Variable routerRoutes : list Route -> Code.
Variable routerAllowedMethods : list Route -> Code.
Variable stores : Stores.

Let configureRouterOf := configureRouter getParam isValidElement render stores.

Lemma configureRouter_assembling e app c app' :
configureRouterOf e app = (c, app') -> assembling app app'.
Proof.
unfold configureRouterOf, configureRouter.
destruct (getController stores (Endpoint.controller e)) as [controller|].
- unfold bind, gets. simpl.
  destruct (methods app !! Endpoint.method e) as [verb|].
  + destruct (Controller.target controller (Endpoint.propertyKey e)) as [cb|].
    * unfold routerRegister, emit, perform, modify. simpl. intros [= <- <-].
      repeat split. eexists. simpl. split; [done|]. repeat constructor. by eexists.
    * intros [= <- <-]. apply assembling_refl.
  + intros [= <- <-]. apply assembling_refl.
- intros [= <- <-]. apply assembling_refl.
Qed.

Lemma forEach_assembling l app c app' :
forEach l configureRouterOf app = (c, app') -> assembling app app'.
Proof.
revert app. induction l as [|e l IH]; intros app; simpl.
- intros [= <- <-]. apply assembling_refl.
- unfold bind at 1.
  destruct (configureRouterOf e app) as [[[]|err] app1] eqn:He.
  + intros Hrest. eapply assembling_trans; [|by eapply IH].
    by eapply configureRouter_assembling.
  + intros [= <- <-]. by eapply configureRouter_assembling.
Qed.

(** An endpoint that is processed is registered under its effective
    path, with the dispatcher of its handler. *)
Lemma configureRouter_registers e app app' :
  configureRouterOf e app = (Normal tt, app') ->
  exists controller verb cb,
    getController stores (Endpoint.controller e) = Some controller
    /\ methods app !! Endpoint.method e = Some verb
    /\ Controller.target controller (Endpoint.propertyKey e) = Some cb
    /\ router_stack app'
       = router_stack app
         ++ [mkRoute verb
               (effectivePath (Controller.path controller) (Endpoint.path e))
               (handleRoute getParam isValidElement render cb
                  (getParams stores (Endpoint.controller e) (Endpoint.propertyKey e)))].
Proof.
  unfold configureRouterOf, configureRouter.
  destruct (getController stores (Endpoint.controller e)) as [controller|] eqn:Hc; [|done].
  unfold bind, gets. simpl.
  destruct (methods app !! Endpoint.method e) as [verb|] eqn:Hverb; [|done].
  destruct (Controller.target controller (Endpoint.propertyKey e)) as [cb|] eqn:Hcb; [|done].
  unfold routerRegister, emit, perform, modify. simpl. intros [= <-].
  by exists controller, verb, cb.
Qed.





Let configureMiddlewaresOf := configureMiddlewares bodyParser stores.

Lemma forEach_serverUse (f : Code -> Code) l app :
forEach l (fun Middleware => serverUse (f Middleware)) app
= (Normal tt,
   mkApp (server_middleware app ++ (f <$> l)) (router_stack app) (methods app)
         (server_listening app) (app_events app)).
Proof.
revert app. induction l as [|x l IH]; intros app; simpl.
- rewrite app_nil_r. by destruct app.
- unfold bind at 1. unfold serverUse at 1, modify. rewrite IH. simpl.
  by rewrite <- app_assoc.
Qed.

(** [configureMiddlewares] always completes; it appends the request
  logger, the body parser and one wrapper per registered middleware,
  in that order, to the middleware of the server. *)
Lemma configureMiddlewares_run app :
configureMiddlewaresOf app
= (Normal tt,
   mkApp (server_middleware app
            ++ requestLogger :: bodyParser ["json"; "form"; "text"]
               :: (wrapMiddleware <$> middlewareStore stores))
         (router_stack app) (methods app) (server_listening app)
         (app_events app ++ [Emit "configure.middlewares" []; Info "Configured Middlewares"])).
Proof.
unfold configureMiddlewaresOf, configureMiddlewares.
unfold bind at 1. unfold serverUse at 1, modify.
unfold bind at 1. unfold serverUse at 1, modify.
unfold bind at 1. rewrite forEach_serverUse.
unfold bind, emit, loggerInfo, perform, modify. simpl.
by rewrite <- !app_assoc.
Qed.
End ApplicationFacts.

(** ** The order of the middleware chain *)

Lemma advanced_trans i n r1 r2 r3 :
  advanced i n r1 r2 -> advanced i n r2 r3 -> advanced i n r1 r3.
Proof.
  intros [[Hi1 Ht1]|(Hlt1 & Hle1 & k1 & Hk1 & Ht1)] [[Hi2 Ht2]|(Hlt2 & Hle2 & k2 & Hk2 & Ht2)].
  - left. split; congruence.
  - right. rewrite <- Hi1, <- Ht1. eauto 10.
  - right. rewrite Hi2, Ht2. eauto 10.
  - lia.
Qed.

Lemma advanced_same i n r1 r2 r' :
  run_index r1 = run_index r2 -> run_trace r1 = run_trace r2 ->
  advanced i n r1 r' -> advanced i n r2 r'.
Proof. unfold advanced. intros -> ->. done. Qed.

Lemma exec_advanced code (next : Next) i n :
  (forall r c r', next r = (c, r') -> advanced i n r r') ->
  forall r c r', exec code next r = (c, r') -> advanced i n r r'.
Proof.
  intros Hnext. induction code as [c0|k IH|f k IH|e k IH|k IH]; intros r c r'; simpl.
  - intros [= <- <-]. by left.
  - apply IH.
  - intros Hk%IH. by eapply advanced_same; [..|exact Hk].
  - intros Hk%IH. by eapply advanced_same; [..|exact Hk].
  - destruct (next r) as [c1 r1] eqn:Hn. intros Hk%IH.
    eapply advanced_trans; [by eapply Hnext|done].
Qed.

Lemma dispatch_advanced middleware i r c r' :
  dispatch middleware i r = (c, r') -> advanced i (length middleware) r r'.
Proof.
  revert i r c r'. induction middleware as [|fn rest IH]; intros i r c r'; simpl;
    destruct (Z.leb_spec (Z.of_nat i) (run_index r)) as [Hle|Hgt].
  - intros [= <- <-]. by left.
  - intros [= <- <-]. right. simpl. split; [done|]. split; [done|].
    exists 0%nat. split; [done|]. by rewrite app_nil_r.
  - intros [= <- <-]. by left.
  - intros Hexec.
    apply (exec_advanced fn (dispatch rest (S i)) (S i) (length rest)) in Hexec;
      [|intros ???; apply IH].
    right. split; [done|].
    destruct Hexec as [[Hi Ht]|(Hlt & Hle' & k & Hk & Ht)]; simpl in *.
    + split; [lia|]. exists 1%nat. split; [lia|]. by rewrite Ht.
    + split; [lia|]. exists (S k). split; [lia|].
      rewrite Ht, <- app_assoc. done.
Qed.


Lemma exec_forwards code (next : Next) r :
  Forwards code ->
  exists r0, run_index r0 = run_index r /\ run_trace r0 = run_trace r
    /\ exec code next r = next r0.
Proof.
  intros H. revert r. induction H as [|k _ IH|f k _ IH|e k _ IH]; intros r; simpl.
  - exists r. repeat split. by destruct (next r).
  - apply IH.
  - destruct (IH (mkRun (f (run_context r)) (run_index r) (run_trace r) (run_output r)))
      as (r0 & ? & ? & ?). by exists r0.
  - destruct (IH (mkRun (run_context r) (run_index r) (run_trace r) (run_output r ++ [e])))
      as (r0 & ? & ? & ?). by exists r0.
Qed.



(** When the cursor is below [i], [dispatch(i)] is not rejected. *)
Lemma dispatch_enters middleware i r :
  run_index r < Z.of_nat i ->
  Z.of_nat i <= run_index (snd (dispatch middleware i r))
  /\ exists k, (k <= length middleware)%nat
       /\ run_trace (snd (dispatch middleware i r)) = run_trace r ++ seq i k.
Proof.
  intros Hlt.
  destruct (dispatch middleware i r) as [c r'] eqn:Hd.
  pose proof (dispatch_advanced _ _ _ _ _ Hd) as [[Hi Ht]|(_ & Hle & k & Hk & Ht)]; simpl.
  - destruct middleware as [|fn rest]; simpl in Hd;
      destruct (Z.leb_spec (Z.of_nat i) (run_index r)) as [|_]; try lia.
    + injection Hd as _ <-. simpl in *. lia.
    + apply (exec_advanced fn (dispatch rest (S i)) (S i) (length rest)) in Hd;
        [|intros ???; apply dispatch_advanced].
      destruct Hd as [[Hi' _]|(_ & Hle' & _)]; simpl in *; lia.
  - split; [done|]. by exists k.
Qed.


Section StartupClaims.
Variable getParam : Context -> SourceKind -> Value -> Completion Value.
Variable isValidElement : Value -> bool.
Variable render : Value -> Completion Value.
Variable bodyParser : list string -> Code.
Variable routerRoutes : list Route -> Code.
Variable routerAllowedMethods : list Route -> Code.

(** C2 (amended). Every endpoint that route assembly processes is
    registered under basePath followed by subPath with exactly one
    trailing separator stripped whenever that concatenation ends with a
    separator, whatever its length: basePath "/" with an empty subPath
    is registered under the empty string.  The registered path ends
    with a separator exactly when the concatenation ends with two
    separators.  It is the path the specification describes unless the
    concatenation is the separator alone. *)
Theorem route_assembly_effective_path (stores : Stores) (e : Endpoint.t) (app app' : App) :
  configureRouter getParam isValidElement render stores e app = (Normal tt, app') ->
  exists controller route,
    getController stores (Endpoint.controller e) = Some controller
    /\ router_stack app' = router_stack app ++ [route]
    /\ route_path route = effectivePath (Controller.path controller) (Endpoint.path e)
    /\ let full := Controller.path controller +:+ Endpoint.path e in
       (endsWithSeparator full = true -> full = route_path route +:+ "/")
       /\ (endsWithSeparator full = false -> route_path route = full)
       /\ (endsWithSeparator (route_path route) = true
           <-> exists rest, full = rest +:+ "//")
       /\ (full = "/" -> route_path route = "")
       /\ (full <> "/" ->
           route_path route
           = specEffectivePath (Controller.path controller) (Endpoint.path e)).
Proof.
  intros Hrun.
  destruct (configureRouter_registers _ _ _ _ _ _ _ Hrun)
    as (controller & verb & cb & Hc & _ & _ & Hstack).
  eexists controller, _. split; [exact Hc|]. split; [exact Hstack|].
  split; [reflexivity|]. simpl. apply effectivePath_spec.
Qed.

End StartupClaims.

Lemma route_assembly_effective_path_witness :
  let configure :=
    configureRouter specGetParam demoIsValidElement demoRender demoStores in
  configure listPosts newApp = (Normal tt, snd (configure listPosts newApp))
  /\ exists controller route,
       getController demoStores "PostController" = Some controller
       /\ router_stack (snd (configure listPosts newApp)) = [route]
       /\ route_path route = effectivePath (Controller.path controller) "/".
Proof.
  intros configure.
  assert (Hrun : configure listPosts newApp = (Normal tt, snd (configure listPosts newApp)))
    by reflexivity.
  split; [exact Hrun|].
  destruct (route_assembly_effective_path specGetParam demoIsValidElement demoRender
              demoStores listPosts newApp _ Hrun)
    as (controller & route & Hc & Hstack & Hpath & _).
  exists controller, route. split; [exact Hc|]. split; [exact Hstack | exact Hpath].
Defined.

(** C2 (as stated) fails: basePath "/" with an empty subPath is
    registered under the empty string where the specification keeps
    "/", and a concatenation with two trailing separators yields a path
    that still ends with one. *)
Lemma effectivePath_root_counterexample :
  route_path <$> router_stack
      (snd (configureRouter specGetParam demoIsValidElement demoRender demoStores
              home newApp)) = [""]
  /\ effectivePath "/" "" = ""
  /\ specEffectivePath "/" "" = "/"
  /\ effectivePath "/users/" "/" = "/users/"
  /\ endsWithSeparator (effectivePath "/users/" "/") = true
  /\ "/users/" +:+ "/" <> "/".
Proof. repeat split; (reflexivity || discriminate). Qed.






(** The sample chain on a request: all four positions are entered in
    order, the second counter sees the effect of the first, and the
    request line is logged. *)
Example demo_chain_run :
  snd (compose (requestLogger :: demoBodyParser ["json"; "form"; "text"]
                :: (wrapMiddleware <$> [countOne; countUp])) demoContext)
  = mkRun (withStatus (VNum 2) demoContext) 4 [0; 1; 2; 3]%nat
          [Info "REQUEST: GET /users/7?q=x"].
Proof. reflexivity. Qed.

(** * Further properties of the dispatcher *)

Lemma NoDup_fmap_eq {A B} (f : A -> B) (l : list A) x y :
  NoDup (f <$> l) -> x ∈ l -> y ∈ l -> f x = f y -> x = y.
Proof.
  induction l as [|a l IH]; csimpl; [by intros _ ?%elem_of_nil|].
  intros [Hnotin Hnodup]%NoDup_cons [->|Hx]%elem_of_cons [->|Hy]%elem_of_cons Hf;
    [done| | |by apply IH].
  - exfalso. apply Hnotin. rewrite Hf. by apply list_elem_of_fmap_2.
  - exfalso. apply Hnotin. rewrite <- Hf. by apply list_elem_of_fmap_2.
Qed.

(** When the indices are distinct, the sorted bindings do not depend on
    the order in which the decorators registered them. *)
Lemma sortParams_order_irrelevant params params' :
  params ≡ₚ params' -> NoDup (index <$> params) ->
  sortParams params = sortParams params'.
Proof.
  intros Hperm Hnodup.
  apply (StronglySorted_unique_strong indexLe).
  - intros x1 x2 Hx1 Hx2 H12 H21.
    rewrite sortParams_perm in Hx1. rewrite sortParams_perm, <- Hperm in Hx2.
    apply (NoDup_fmap_eq index params); [done..|]. unfold indexLe in *. lia.
  - apply sortParams_sorted.
  - apply sortParams_sorted.
  - by rewrite !sortParams_perm.
Qed.

Section DispatchExtras.
Variable getParam : Context -> SourceKind -> Value -> Completion Value.
Variable isValidElement : Value -> bool.
Variable render : Value -> Completion Value.

Lemma extractArgs_throws l context p err :
  p ∈ l -> getParam context (type p) (meta p) = Throw err ->
  exists q err',
    q ∈ l /\ getParam context (type q) (meta q) = Throw err'
    /\ extractArgs getParam l context = (Throw err', context).
Proof.
  intros Hin Hp. induction l as [|a l IH]; [by apply elem_of_nil in Hin|].
  unfold extractArgs in *. simpl. unfold bind at 1.
  destruct (getParam context (type a) (meta a)) as [v|e] eqn:Ha.
  - apply elem_of_cons in Hin as [->|Hin]; [congruence|].
    destruct (IH Hin) as (q & err' & Hq & Hthrow & Hrun).
    exists q, err'. split; [by right|]. split; [done|].
    unfold bind. by rewrite Hrun.
  - exists a, e. split; [by left|]. by split.
Qed.


(** X2. When the extractor of a binding throws, the handler is not
    called: the outcome is the normalization of an extractor's error on
    the untouched context, the same for every handler. *)
Theorem handleRoute_extractor_throws params context p err :
  p ∈ params ->
  getParam context (type p) (meta p) = Throw err ->
  exists q err',
    q ∈ params
    /\ getParam context (type q) (meta q) = Throw err'
    /\ forall cb : Handler,
         handleRoute getParam isValidElement render cb params context
         = catchBlock err' context.
Proof.
  intros Hin Hp. rewrite <- (sortParams_perm params) in Hin.
  destruct (extractArgs_throws _ _ _ _ Hin Hp) as (q & err' & Hq & Hthrow & Hrun).
  exists q, err'. split; [by rewrite <- (sortParams_perm params)|]. split; [done|].
  intros cb. unfold handleRoute, tryCatch, tryBlock.
  by rewrite (bind_throw _ _ _ _ _ Hrun).
Qed.

(** X3. When rendering throws, the element is not assigned: the error
    of the renderer is normalized like an error of the handler, on the
    context as the handler left it. *)
Theorem handleRoute_render_throws cb params context args res err context1 :
  extractArgs getParam (sortParams params) context = (Normal args, context) ->
  cb args context = (Normal res, context1) ->
  toBoolean res = true ->
  isValidElement res = true ->
  render res = Throw err ->
  handleRoute getParam isValidElement render cb params context
  = catchBlock err context1.
Proof.
  intros Hargs Hcb Htruthy Helem Hrender.
  rewrite (handleRoute_returned _ _ _ _ _ _ _ _ _ Hargs Hcb).
  unfold tryCatch, respond. rewrite Htruthy, Helem.
  unfold bind, lift. by rewrite Hrender.
Qed.




(** X7. With distinct argument indices, dispatch does not depend on the
    order in which the bindings were registered. *)
Theorem handleRoute_registration_order cb params params' :
  params ≡ₚ params' ->
  NoDup (index <$> params) ->
  handleRoute getParam isValidElement render cb params
  = handleRoute getParam isValidElement render cb params'.
Proof.
  intros Hperm Hnodup. unfold handleRoute.
  by rewrite (sortParams_order_irrelevant _ _ Hperm Hnodup).
Qed.
End DispatchExtras.

(** * Further properties of route assembly *)

Lemma newApp_methods_lookup m verb :
  methods newApp !! m = Some verb -> m ∈ supportedMethods /\ verb = toLowerCase m.
Proof.
  unfold newApp, supportedMethods. simpl. intros Hv.
  repeat (apply lookup_insert_Some in Hv as [[<- <-]|[_ Hv]];
          [split; [repeat ((by left) || right) | done]|]).
  by rewrite lookup_empty in Hv.
Qed.

Section AssemblyExtras.
Variable getParam : Context -> SourceKind -> Value -> Completion Value.
Variable isValidElement : Value -> bool.
Variable render : Value -> Completion Value.
Variable bodyParser : list string -> Code.
Variable routerRoutes : list Route -> Code.
Variable routerAllowedMethods : list Route -> Code.
Variable stores : Stores.

Let configureRouterOf := configureRouter getParam isValidElement render stores.
Let bootstrapOf :=
  bootstrap getParam isValidElement render bodyParser routerRoutes routerAllowedMethods stores.

(** What processing one resolving endpoint does to the application. *)
Lemma configureRouter_run e app :
  resolves stores e -> methods app = methods newApp ->
  exists route,
    routeFor getParam isValidElement render stores e route
    /\ configureRouterOf e app
       = (Normal tt,
          mkApp (server_middleware app) (router_stack app ++ [route]) (methods app)
                (server_listening app) (app_events app ++ [routerEvent e])).
Proof.
  intros (controller & Hc & Hm & [cb Hcb]) Happ.
  apply newApp_methods in Hm as [verb Hverb].
  destruct (newApp_methods_lookup _ _ Hverb) as [_ ->].
  exists (mkRoute (toLowerCase (Endpoint.method e))
            (effectivePath (Controller.path controller) (Endpoint.path e))
            (handleRoute getParam isValidElement render cb
               (getParams stores (Endpoint.controller e) (Endpoint.propertyKey e)))).
  split; [by exists controller, cb|].
  rewrite <- Happ in Hverb.
  unfold configureRouterOf, configureRouter. rewrite Hc.
  unfold bind, gets. simpl. rewrite Hverb, Hcb. reflexivity.
Qed.

Lemma forEach_resolves l app :
  Forall (resolves stores) l -> methods app = methods newApp ->
  exists routes,
    Forall2 (routeFor getParam isValidElement render stores) l routes
    /\ forEach l configureRouterOf app
       = (Normal tt,
          mkApp (server_middleware app) (router_stack app ++ routes) (methods app)
                (server_listening app) (app_events app ++ (routerEvent <$> l))).
Proof.
  intros Hall. revert app. induction Hall as [|e l He _ IH]; intros app Happ.
  - exists []. split; [constructor|]. simpl. rewrite !app_nil_r. by destruct app.
  - destruct (configureRouter_run e app He Happ) as (route & Hroute & Hrun).
    simpl. unfold bind at 1. rewrite Hrun.
    match goal with |- context [forEach l _ ?a] =>
      destruct (IH a Happ) as (routes & Hroutes & Hloop)
    end.
    exists (route :: routes). split; [by constructor|].
    rewrite Hloop. simpl. by rewrite <- !app_assoc.
Qed.

(** The chain that [configureMiddlewares] installs. *)
Let chain : list Code :=
  requestLogger :: bodyParser ["json"; "form"; "text"]
  :: (wrapMiddleware <$> middlewareStore stores).

(** The application after [configureMiddlewares], with the routes and
    the events added since. *)
Let configured (routes : list Route) (evs : list Event) : App :=
  mkApp chain routes (methods newApp) None
        ([Emit "configure.middlewares" []; Info "Configured Middlewares"] ++ evs).

Lemma bootstrap_unfold :
  bootstrapOf newApp
  = match forEach (endpoints stores) configureRouterOf (configured [] []) with
    | (Normal _, app1) =>
        (Normal tt,
         mkApp (server_middleware app1
                  ++ [routerRoutes (router_stack app1);
                      routerAllowedMethods (router_stack app1)])
               (router_stack app1) (methods app1) (server_listening app1)
               (app_events app1
                  ++ [Emit "configure.routers" []; Info "Configured Routers";
                      Emit "app.ready" []]))
    | (Throw err, app1) => (Throw err, app1)
    end.
Proof.
  assert (Hmw : configureMiddlewares bodyParser stores newApp
                = (Normal tt, configured [] [])).
  { rewrite configureMiddlewares_run. reflexivity. }
  unfold bootstrapOf, bootstrap.
  rewrite (bind_normal _ _ _ _ _ Hmw).
  unfold configureRouters. unfold bind at 1 2.
  fold configureRouterOf.
  destruct (forEach (endpoints stores) configureRouterOf (configured [] []))
    as [[[]|err] app1]; [|done].
  unfold bind, gets, serverUse, emit, loggerInfo, perform, modify. simpl.
  by rewrite <- !app_assoc.
Qed.

Lemma forEach_prefix pre rest :
  Forall (resolves stores) pre ->
  exists routes,
    Forall2 (routeFor getParam isValidElement render stores) pre routes
    /\ forEach (pre ++ rest) configureRouterOf (configured [] [])
       = forEach rest configureRouterOf (configured routes (routerEvent <$> pre)).
Proof.
  intros Hpre.
  destruct (forEach_resolves pre (configured [] []) Hpre eq_refl)
    as (routes & Hroutes & Hloop).
  exists routes. split; [done|].
  by rewrite (forEach_app _ _ _ _ _ Hloop).
Qed.

Lemma forEach_normal_resolves l app app' :
  methods app = methods newApp ->
  forEach l configureRouterOf app = (Normal tt, app') ->
  Forall (resolves stores) l.
Proof.
  revert app. induction l as [|e l IH]; intros app Happ; [constructor|].
  simpl. unfold bind at 1.
  destruct (configureRouterOf e app) as [[[]|err] app1] eqn:He; [|done].
  intros Hrest.
  destruct (configureRouter_registers _ _ _ _ _ _ _ He)
    as (controller & verb & cb & Hc & Hverb & Hcb & _).
  destruct (configureRouter_assembling _ _ _ _ _ _ _ _ He) as (_ & Hm & _).
  constructor.
  - exists controller. split; [done|]. split; [|by eexists].
    rewrite Happ in Hverb. by apply newApp_methods_lookup in Hverb as [? _].
  - eapply IH; [|exact Hrest]. congruence.
Qed.

(** An endpoint that does not resolve makes its step throw and leaves
    the application as it was. *)
Lemma configureRouter_fails e app :
  methods app = methods newApp ->
  ~ resolves stores e ->
  exists err, configureRouterOf e app = (Throw err, app).
Proof.
  intros Happ Hnot. unfold configureRouterOf, configureRouter.
  destruct (getController stores (Endpoint.controller e)) as [controller|] eqn:Hc;
    [|by eexists].
  unfold bind, gets. simpl.
  destruct (methods app !! Endpoint.method e) as [verb|] eqn:Hverb; [|by eexists].
  destruct (Controller.target controller (Endpoint.propertyKey e)) as [cb|] eqn:Hcb;
    [|by eexists].
  exfalso. apply Hnot. exists controller. split; [done|]. split; [|by eexists].
  rewrite Happ in Hverb. by apply newApp_methods_lookup in Hverb as [? _].
Qed.

(** The whole of a start-up in which every endpoint resolves. *)
Lemma bootstrap_run :
  Forall (resolves stores) (endpoints stores) ->
  exists routes,
    Forall2 (routeFor getParam isValidElement render stores) (endpoints stores) routes
    /\ bootstrapOf newApp
       = (Normal tt,
          mkApp (chain ++ [routerRoutes routes; routerAllowedMethods routes])
                routes (methods newApp) None
                ([Emit "configure.middlewares" []; Info "Configured Middlewares"]
                 ++ (routerEvent <$> endpoints stores)
                 ++ [Emit "configure.routers" []; Info "Configured Routers";
                     Emit "app.ready" []])).
Proof.
  intros Hall. rewrite bootstrap_unfold.
  destruct (forEach_resolves _ (configured [] []) Hall eq_refl)
    as (routes & Hroutes & ->).
  exists routes. split; [done|]. simpl. rewrite <- ?app_assoc. reflexivity.
Qed.

(** X8. When every endpoint resolves, start-up completes and the
    router holds exactly one route per endpoint, in store order: the
    lower-case method, the effective path and the dispatcher of the
    controller method.  Endpoints with the same method and path are
    all registered. *)
Theorem bootstrap_route_table :
  Forall (resolves stores) (endpoints stores) ->
  exists app',
    bootstrapOf newApp = (Normal tt, app')
    /\ Forall2 (routeFor getParam isValidElement render stores)
         (endpoints stores) (router_stack app').
Proof.
  intros Hall. destruct (bootstrap_run Hall) as (routes & Hroutes & ->).
  eexists. split; [reflexivity | done].
Qed.


(** X10. Start-up completes exactly when every endpoint resolves:
    its controller is registered, its method is one of the seven the
    constructor mapped (in upper case), and the controller has the
    method the endpoint names. *)
Theorem bootstrap_succeeds_iff :
  (exists app', bootstrapOf newApp = (Normal tt, app'))
  <-> Forall (resolves stores) (endpoints stores).
Proof.
  split.
  - intros [app' Hrun]. rewrite bootstrap_unfold in Hrun.
    destruct (forEach (endpoints stores) configureRouterOf (configured [] []))
      as [[[]|err] app1] eqn:Hloop; [|done].
    by eapply forEach_normal_resolves; [|exact Hloop].
  - intros Hall. destruct (bootstrap_run Hall) as (routes & _ & H). eauto.
Qed.

Lemma bootstrap_first_failure pre e post err :
  endpoints stores = pre ++ e :: post ->
  Forall (resolves stores) pre ->
  (forall app, methods app = methods newApp -> configureRouterOf e app = (Throw err, app)) ->
  exists routes,
    Forall2 (routeFor getParam isValidElement render stores) pre routes
    /\ bootstrapOf newApp = (Throw err, configured routes (routerEvent <$> pre)).
Proof.
  intros Hsplit Hpre He. rewrite bootstrap_unfold, Hsplit.
  destruct (forEach_prefix pre (e :: post) Hpre) as (routes & Hroutes & ->).
  exists routes. split; [done|].
  simpl. unfold bind at 1. by rewrite He.
Qed.

(** X11. Route assembly stops at the first endpoint that does not
    resolve.  The routes of the endpoints before it stay registered,
    with their [configure.router] events; nothing is registered for it
    or for any endpoint after it, the router is not mounted on the
    server, and neither [configure.routers] nor [app.ready] follows. *)
Theorem bootstrap_partial_registration pre e post :
  endpoints stores = pre ++ e :: post ->
  Forall (resolves stores) pre ->
  ~ resolves stores e ->
  exists err app',
    bootstrapOf newApp = (Throw err, app')
    /\ Forall2 (routeFor getParam isValidElement render stores) pre (router_stack app')
    /\ app_events app'
       = [Emit "configure.middlewares" []; Info "Configured Middlewares"]
         ++ (routerEvent <$> pre)
    /\ server_middleware app'
       = requestLogger :: bodyParser ["json"; "form"; "text"]
         :: (wrapMiddleware <$> middlewareStore stores).
Proof.
  intros Hsplit Hpre Hnot. rewrite bootstrap_unfold, Hsplit.
  destruct (forEach_prefix pre (e :: post) Hpre) as (routes & Hroutes & ->).
  destruct (configureRouter_fails e (configured routes (routerEvent <$> pre)) eq_refl Hnot)
    as [err Herr].
  exists err, (configured routes (routerEvent <$> pre)).
  split; [|by repeat split].
  simpl. unfold bind at 1. by rewrite Herr.
Qed.

(** X12. An endpoint whose method is not one of the seven mapped by
    the constructor (the lookup is case-sensitive) makes route assembly
    throw "Method <method> not found", when its controller is
    registered and the endpoints before it resolve. *)
Theorem bootstrap_unsupported_method pre e post controller :
  endpoints stores = pre ++ e :: post ->
  Forall (resolves stores) pre ->
  getController stores (Endpoint.controller e) = Some controller ->
  Endpoint.method e ∉ supportedMethods ->
  exists app',
    bootstrapOf newApp
    = (Throw (newError ("Method " +:+ Endpoint.method e +:+ " not found")), app').
Proof.
  intros Hsplit Hpre Hc Hm.
  destruct (bootstrap_first_failure pre e post
              (newError ("Method " +:+ Endpoint.method e +:+ " not found")) Hsplit Hpre)
    as (routes & _ & Hrun); [|by eauto].
  intros app Happ. unfold configureRouterOf, configureRouter. rewrite Hc.
  unfold bind, gets. simpl. rewrite Happ.
  destruct (methods newApp !! Endpoint.method e) as [verb|] eqn:Hverb; [|done].
  exfalso. apply Hm. by apply newApp_methods_lookup in Hverb as [? _].
Qed.

End AssemblyExtras.

(** * Further properties of the middleware wrapper *)

Lemma exec_seqCode p q (next : Next) r :
  exec (seqCode p q) next r
  = match exec p next r with
    | (Normal _, r') => exec q next r'
    | (Throw e, r') => (Throw e, r')
    end.
Proof.
  revert r. induction p as [[[]|e]|k IH|f k IH|ev k IH|k IH]; intros r; simpl; try done.
  destruct (next r) as [c r']. apply IH.
Qed.

Lemma exec_catchCode p h (next : Next) r :
  exec (catchCode p h) next r
  = match exec p next r with
    | (Normal a, r') => (Normal a, r')
    | (Throw e, r') => exec (h e) next r'
    end.
Proof.
  revert r. induction p as [[[]|e]|k IH|f k IH|ev k IH|k IH]; intros r; simpl; try done.
  destruct (next r) as [c r']. apply IH.
Qed.

(** The wrapper, by the outcomes of the middleware and of the rest of
    the chain. *)
Lemma exec_wrapMiddleware_cases use (next : Next) r :
  exec (wrapMiddleware use) next r
  = match exec use next r with
    | (Normal _, r0) =>
        match next r0 with
        | (Normal a, r1) => (Normal a, r1)
        | (Throw err, r1) => exec (trapError err) next r1
        end
    | (Throw err, r0) => exec (trapError err) next r0
    end.
Proof.
  unfold wrapMiddleware. rewrite exec_catchCode, exec_seqCode.
  destruct (exec use next r) as [[[]|err] r0]; [|done].
  simpl. by destruct (next r0) as [[[]|err] r1].
Qed.

Lemma exec_trapError_object err (next : Next) r :
  err <> VNull -> err <> VUndefined ->
  exec (trapError err) next r = (Normal tt, trapped err r).
Proof.
  intros Hnull Hundef. unfold trapError, trapped, trapStatus, trapBody.
  simpl. rewrite !(getProp_field err) by done. simpl.
  by destruct r as [[]].
Qed.

Section WrapperExtras.
Variable use : Code.
Variable next : Next.



(** X16. When the middleware and the rest of the chain both resolve,
    the wrapper resolves with the run as the rest of the chain left it:
    no event is emitted and the response is not touched. *)
Theorem wrapMiddleware_transparent r r0 r1 :
  exec use next r = (Normal tt, r0) ->
  next r0 = (Normal tt, r1) ->
  exec (wrapMiddleware use) next r = (Normal tt, r1).
Proof.
  intros Huse Hnext. by rewrite exec_wrapMiddleware_cases, Huse, Hnext.
Qed.

End WrapperExtras.

(** X18. A registered middleware that itself awaits [next] as its last
    action makes the wrapper call [next] a second time.  Under
    koa-compose the second call is rejected, so when the rest of the
    chain resolved, the response it produced is overwritten: status
    500 and body [{error: "next() called multiple times", status: 500}]. *)
Theorem wrapMiddleware_double_next use rest i r r1 :
  Forwards use ->
  run_index r < Z.of_nat (S i) ->
  exec use (dispatch rest (S i)) r = (Normal tt, r1) ->
  exec (wrapMiddleware use) (dispatch rest (S i)) r
  = (Normal tt, trapped (newError "next() called multiple times") r1)
  /\ ctx_status (run_context (trapped (newError "next() called multiple times") r1))
     = VNum 500
  /\ ctx_body (run_context (trapped (newError "next() called multiple times") r1))
     = VObj [("error", VStr "next() called multiple times"); ("status", VNum 500)].
Proof.
  intros Hfwd Hlt Huse.
  assert (Hidx : Z.of_nat (S i) <= run_index r1).
  { destruct (exec_forwards use (dispatch rest (S i)) r Hfwd) as (r0 & Hi0 & _ & Heq).
    rewrite Huse in Heq.
    destruct (dispatch_enters rest (S i) r0) as [Hle _]; [lia|].
    by rewrite <- Heq in Hle. }
  assert (Hsecond : dispatch rest (S i) r1
                    = (Throw (newError "next() called multiple times"), r1)).
  { destruct rest; simpl;
      by destruct (Z.leb_spec (Z.of_nat (S i)) (run_index r1)) as [_|?]; [|lia]. }
  split; [|by split].
  rewrite exec_wrapMiddleware_cases, Huse, Hsecond.
  by apply exec_trapError_object.
Qed.

(** * Properties of module loading *)

Lemma appPath_nonempty options path : path <> "" -> appPath options path <> "".
Proof.
  intros Hpath. unfold appPath.
  destruct (opt_root options) as [[|c root]|]; simpl; done.
Qed.

Section LoadingFacts.
Variable existsSync : string -> bool.
Variable readdirRecursive : string -> Completion (list string).
Variable importModule : string -> M Stores unit.
Variable getParam : Context -> SourceKind -> Value -> Completion Value.
Variable isValidElement : Value -> bool.
Variable render : Value -> Completion Value.
Variable bodyParser : list string -> Code.
Variable routerRoutes : list Route -> Code.
Variable routerAllowedMethods : list Route -> Code.
Variable options : CreateOptions.

Let loadProvidersOf := loadProviders readdirRecursive importModule options.
Let loadControllersOf := loadControllers existsSync readdirRecursive importModule options.
Let loadMiddlewareOf := loadMiddleware existsSync readdirRecursive importModule options.
Let startupOf :=
  startup existsSync readdirRecursive importModule getParam isValidElement render
          bodyParser routerRoutes routerAllowedMethods options.
Let bootstrapOf :=
  bootstrap getParam isValidElement render bodyParser routerRoutes routerAllowedMethods.

(** Importing touches the stores only, file by file in list order. *)
Lemma importAll_run files b :
  importAll importModule files b
  = match forEach files importModule (boot_stores b) with
    | (c, stores') => (c, mkBoot (boot_app b) stores')
    end.
Proof.
  revert b. induction files as [|file files IH]; intros b; simpl.
  - by destruct b.
  - unfold importAll in *. simpl. unfold bind at 1 2. unfold onStores at 1.
    destruct (importModule file (boot_stores b)) as [[[]|e] s1]; [|done].
    by rewrite IH.
Qed.

(** A loader whose directory is scanned: the imports, then the event
    and the log line. *)
Lemma load_scanned files name line b :
  (let* _ := importAll importModule files in
   let* _ := onApp (emit name []) in
   onApp (loggerInfo line)) b
  = match forEach files importModule (boot_stores b) with
    | (Normal _, stores') =>
        (Normal tt,
         mkBoot (mkApp (server_middleware (boot_app b)) (router_stack (boot_app b))
                       (methods (boot_app b)) (server_listening (boot_app b))
                       (app_events (boot_app b) ++ [Emit name []; Info line]))
                stores')
    | (Throw e, stores') => (Throw e, mkBoot (boot_app b) stores')
    end.
Proof.
  unfold bind at 1. rewrite importAll_run.
  destruct (forEach files importModule (boot_stores b)) as [[[]|e] s1]; [|done].
  unfold bind, onApp, emit, loggerInfo, perform, modify. simpl.
  by rewrite <- app_assoc.
Qed.

Lemma sameServer_trans a b c : sameServer a b -> sameServer b c -> sameServer a c.
Proof. unfold sameServer. intros (?&?&?&?) (?&?&?&?). repeat split; congruence. Qed.

Lemma load_scanned_sameServer files name line b c b' :
  (let* _ := importAll importModule files in
   let* _ := onApp (emit name []) in
   onApp (loggerInfo line)) b = (c, b') ->
  sameServer b b'.
Proof.
  rewrite load_scanned.
  destruct (forEach files importModule (boot_stores b)) as [[[]|e] s1];
    intros [= <- <-]; by repeat split.
Qed.

Lemma loadProviders_sameServer b c b' :
  loadProvidersOf b = (c, b') -> sameServer b b'.
Proof.
  unfold loadProvidersOf, loadProviders.
  destruct (String.eqb _ ""); [intros [= <- <-]; by repeat split|].
  unfold bind at 1. unfold lift.
  destruct (readdirRecursive _) as [files|e]; [|intros [= <- <-]; by repeat split].
  apply load_scanned_sameServer.
Qed.

Lemma loadControllers_sameServer b c b' :
  loadControllersOf b = (c, b') -> sameServer b b'.
Proof.
  unfold loadControllersOf, loadControllers.
  destruct (negb _); [intros [= <- <-]; by repeat split|].
  unfold bind at 1. unfold lift.
  destruct (readdirRecursive _) as [files|e]; [|intros [= <- <-]; by repeat split].
  apply load_scanned_sameServer.
Qed.

Lemma loadMiddleware_sameServer b c b' :
  loadMiddlewareOf b = (c, b') -> sameServer b b'.
Proof.
  unfold loadMiddlewareOf, loadMiddleware.
  destruct (negb _); [intros [= <- <-]; by repeat split|].
  unfold bind at 1. unfold lift.
  destruct (readdirRecursive _) as [files|e]; [|intros [= <- <-]; by repeat split].
  apply load_scanned_sameServer.
Qed.

(** Configuration after loading is [bootstrap] on the stores the
    loaders left. *)
Lemma configure_after_loading b :
  (readingStores (configureMiddlewares bodyParser) ;;
   readingStores (configureRouters getParam isValidElement render
                    routerRoutes routerAllowedMethods) ;;
   onApp (emit "app.ready" [])) b
  = onApp (bootstrapOf (boot_stores b)) b.
Proof.
  unfold bootstrapOf, bootstrap, bind, readingStores, onApp. simpl.
  destruct (configureMiddlewares bodyParser (boot_stores b) (boot_app b))
    as [[[]|e] app1]; [|done].
  simpl.
  destruct (configureRouters _ _ _ _ _ (boot_stores b) app1) as [[[]|e] app2]; [|done].
  simpl. done.
Qed.

(** X19. The providers directory is always scanned: the path handed to
    the scanner is never empty, so the early return of [loadProviders]
    is never taken, and there is no existence check as for the other
    two directories.  When the scanner throws, [loadProviders] and with
    it the whole start-up reject with that error, before anything is
    imported or configured. *)
Theorem loadProviders_always_scans b e :
  readdirRecursive (appPath options "providers") = Throw e ->
  loadProvidersOf b = (Throw e, b)
  /\ startupOf b = (Throw e, b).
Proof.
  intros Hscan.
  assert (Hload : loadProvidersOf b = (Throw e, b)).
  { unfold loadProvidersOf, loadProviders.
    destruct (String.eqb_spec (appPath options "providers") "") as [Hempty|_].
    - by apply appPath_nonempty in Hempty.
    - unfold bind, lift. by rewrite Hscan. }
  split; [done|].
  unfold startupOf, startup. unfold loadProvidersOf in Hload.
  by rewrite (bind_throw (loadProviders _ _ _) _ b _ _ Hload).
Qed.

(** X20. A controllers or middleware directory that does not exist is
    skipped silently: nothing is scanned or imported and no
    [load.*.done] event is emitted.  With an empty providers directory
    start-up then configures the application from the stores as they
    are, after the [load.providers.done] event and its log line. *)
Theorem startup_without_directories b :
  existsSync (appPath options "controllers") = false ->
  existsSync (appPath options "middleware") = false ->
  readdirRecursive (appPath options "providers") = Normal [] ->
  loadControllersOf b = (Normal tt, b)
  /\ loadMiddlewareOf b = (Normal tt, b)
  /\ startupOf b
     = onApp (bootstrapOf (boot_stores b))
         (mkBoot (mkApp (server_middleware (boot_app b)) (router_stack (boot_app b))
                        (methods (boot_app b)) (server_listening (boot_app b))
                        (app_events (boot_app b)
                           ++ [Emit "load.providers.done" []; Info "Loaded 0 Providers"]))
                 (boot_stores b)).
Proof.
  intros Hcontrollers Hmiddleware Hproviders.
  assert (Hc : forall b0, loadControllersOf b0 = (Normal tt, b0)).
  { intros b0. unfold loadControllersOf, loadControllers. by rewrite Hcontrollers. }
  assert (Hm : forall b0, loadMiddlewareOf b0 = (Normal tt, b0)).
  { intros b0. unfold loadMiddlewareOf, loadMiddleware. by rewrite Hmiddleware. }
  split; [done|]. split; [done|].
  set (b1 := mkBoot _ _).
  assert (Hp : loadProvidersOf b = (Normal tt, b1)).
  { unfold loadProvidersOf, loadProviders.
    destruct (String.eqb_spec (appPath options "providers") "") as [Hempty|_].
    - by apply appPath_nonempty in Hempty.
    - unfold bind at 1. unfold lift. rewrite Hproviders.
      rewrite load_scanned. simpl. by destruct b as [app stores]. }
  pose proof (Hc b1) as Hc1. pose proof (Hm b1) as Hm1.
  unfold startupOf, startup.
  unfold loadProvidersOf, loadControllersOf, loadMiddlewareOf in Hp, Hc1, Hm1.
  rewrite (bind_normal (loadProviders _ _ _) _ b _ _ Hp).
  rewrite (bind_normal (loadControllers _ _ _ _) _ b1 _ _ Hc1).
  rewrite (bind_normal (loadMiddleware _ _ _ _) _ b1 _ _ Hm1).
  exact (configure_after_loading b1).
Qed.

(** X21. The modules of the controllers directory are imported one by
    one in the order of the scan.  When one import throws, loading
    rejects with its error: the modules after it are not imported, the
    registrations written by the modules before it (and by the failing
    module before it threw) stay in the stores, no
    [load.controllers.done] is emitted, and the application object is
    untouched. *)
Theorem loadControllers_import_fails b pre file post stores1 e stores2 :
  existsSync (appPath options "controllers") = true ->
  readdirRecursive (appPath options "controllers") = Normal (pre ++ file :: post) ->
  forEach pre importModule (boot_stores b) = (Normal tt, stores1) ->
  importModule file stores1 = (Throw e, stores2) ->
  loadControllersOf b = (Throw e, mkBoot (boot_app b) stores2).
Proof.
  intros Hexists Hscan Hpre Hfile.
  unfold loadControllersOf, loadControllers. rewrite Hexists. simpl.
  unfold bind at 1. unfold lift. rewrite Hscan.
  rewrite load_scanned, (forEach_app _ _ _ _ _ Hpre). simpl.
  unfold bind. by rewrite Hfile.
Qed.

(** X22. When the controllers directory exists and every import
    succeeds, the stores are the result of importing the scanned files
    in order, and the application gains exactly the
    [load.controllers.done] event and the log line with the number of
    files. *)
Theorem loadControllers_imports_all b files stores' :
  existsSync (appPath options "controllers") = true ->
  readdirRecursive (appPath options "controllers") = Normal files ->
  forEach files importModule (boot_stores b) = (Normal tt, stores') ->
  loadControllersOf b
  = (Normal tt,
     mkBoot (mkApp (server_middleware (boot_app b)) (router_stack (boot_app b))
                   (methods (boot_app b)) (server_listening (boot_app b))
                   (app_events (boot_app b)
                      ++ [Emit "load.controllers.done" [];
                          Info ("Loaded " +:+ pretty (Z.of_nat (length files))
                                +:+ " controllers")]))
            stores').
Proof.
  intros Hexists Hscan Himports.
  unfold loadControllersOf, loadControllers. rewrite Hexists. simpl.
  unfold bind at 1. unfold lift. rewrite Hscan.
  by rewrite load_scanned, Himports.
Qed.

(** X23. Start-up configures the application from the stores as the
    three loaders left them: the routes and the middleware chain are
    built from what the imported modules registered. *)
Theorem startup_uses_loaded_stores b b1 b2 b3 :
  loadProvidersOf b = (Normal tt, b1) ->
  loadControllersOf b1 = (Normal tt, b2) ->
  loadMiddlewareOf b2 = (Normal tt, b3) ->
  startupOf b = onApp (bootstrapOf (boot_stores b3)) b3.
Proof.
  intros Hp Hc Hm. unfold startupOf, startup.
  unfold loadProvidersOf, loadControllersOf, loadMiddlewareOf in Hp, Hc, Hm.
  rewrite (bind_normal (loadProviders _ _ _) _ b _ _ Hp).
  rewrite (bind_normal (loadControllers _ _ _ _) _ b1 _ _ Hc).
  rewrite (bind_normal (loadMiddleware _ _ _ _) _ b2 _ _ Hm).
  apply configure_after_loading.
Qed.

(** X24. When a loader rejects, start-up rejects with the same error
    and stops there: no middleware is installed, no route is
    registered, and the server is not set listening. *)
Theorem startup_loader_fails b e b' :
  loadProvidersOf b = (Throw e, b')
  \/ (exists b1, loadProvidersOf b = (Normal tt, b1)
        /\ loadControllersOf b1 = (Throw e, b'))
  \/ (exists b1 b2, loadProvidersOf b = (Normal tt, b1)
        /\ loadControllersOf b1 = (Normal tt, b2)
        /\ loadMiddlewareOf b2 = (Throw e, b')) ->
  startupOf b = (Throw e, b')
  /\ server_middleware (boot_app b') = server_middleware (boot_app b)
  /\ router_stack (boot_app b') = router_stack (boot_app b)
  /\ server_listening (boot_app b') = server_listening (boot_app b).
Proof.
  unfold startupOf, startup, loadProvidersOf, loadControllersOf, loadMiddlewareOf.
  intros [Hp|[(b1 & Hp & Hc)|(b1 & b2 & Hp & Hc & Hm)]].
  - rewrite (bind_throw (loadProviders _ _ _) _ b _ _ Hp).
    destruct (loadProviders_sameServer _ _ _ Hp) as (? & ? & _ & ?). done.
  - rewrite (bind_normal (loadProviders _ _ _) _ b _ _ Hp),
      (bind_throw (loadControllers _ _ _ _) _ b1 _ _ Hc).
    destruct (sameServer_trans _ _ _ (loadProviders_sameServer _ _ _ Hp)
                (loadControllers_sameServer _ _ _ Hc)) as (? & ? & _ & ?). done.
  - rewrite (bind_normal (loadProviders _ _ _) _ b _ _ Hp),
      (bind_normal (loadControllers _ _ _ _) _ b1 _ _ Hc),
      (bind_throw (loadMiddleware _ _ _ _) _ b2 _ _ Hm).
    destruct (sameServer_trans _ _ _ (loadProviders_sameServer _ _ _ Hp)
                (sameServer_trans _ _ _ (loadControllers_sameServer _ _ _ Hc)
                   (loadMiddleware_sameServer _ _ _ Hm))) as (? & ? & _ & ?). done.
Qed.
End LoadingFacts.

(** * The further properties on the sample application *)


Lemma handleRoute_extractor_throws_witness :
  failingParam ∈ [failingParam]
  /\ specGetParam demoContext (type failingParam) (meta failingParam)
     = Throw (newError "bad token")
  /\ exists q err',
       q ∈ [failingParam]
       /\ specGetParam demoContext (type q) (meta q) = Throw err'
       /\ forall cb : Handler,
            demoDispatch cb [failingParam] demoContext = catchBlock err' demoContext.
Proof.
  assert (Hin : failingParam ∈ [failingParam]) by left.
  split; [exact Hin|]. split; [reflexivity|].
  exact (handleRoute_extractor_throws specGetParam demoIsValidElement demoRender
           [failingParam] demoContext failingParam (newError "bad token") Hin eq_refl).
Defined.

Lemma handleRoute_render_throws_witness :
  let element := VObj [("props", VObj [])] in
  let failing : Value -> Completion Value := fun _ => Throw (newError "cannot render") in
  returning element [] demoContext = (Normal element, demoContext)
  /\ toBoolean element = true
  /\ demoIsValidElement element = true
  /\ handleRoute specGetParam demoIsValidElement failing (returning element) [] demoContext
     = catchBlock (newError "cannot render") demoContext.
Proof.
  intros element failing. do 3 (split; [reflexivity|]).
  exact (handleRoute_render_throws specGetParam demoIsValidElement failing
           (returning element) [] demoContext [] element (newError "cannot render")
           demoContext eq_refl eq_refl eq_refl eq_refl eq_refl).
Defined.




Lemma handleRoute_registration_order_witness :
  let a := mkParam 0 Body VUndefined in
  let b := mkParam 1 Query (VStr "q") in
  [a; b] ≡ₚ [b; a]
  /\ NoDup (index <$> [a; b])
  /\ demoDispatch (probe 1) [a; b] = demoDispatch (probe 1) [b; a].
Proof.
  intros a b.
  assert (Hperm : [a; b] ≡ₚ [b; a]) by apply Permutation_swap.
  assert (Hnodup : NoDup (index <$> [a; b])).
  { apply NoDup_cons. split; [|apply NoDup_singleton].
    intros Hin%list_elem_of_singleton. discriminate Hin. }
  split; [exact Hperm|]. split; [exact Hnodup|].
  exact (handleRoute_registration_order specGetParam demoIsValidElement demoRender
           (probe 1) [a; b] [b; a] Hperm Hnodup).
Defined.

Lemma goodStores_resolve : Forall (resolves goodStores) (endpoints goodStores).
Proof.
  constructor; [|constructor; [|constructor]].
  - exists postController. split; [reflexivity|]. split; [left | by eexists].
  - exists homeController. split; [reflexivity|]. split; [left | by eexists].
Defined.

Lemma listPosts_resolves es : resolves (storesWith es) listPosts.
Proof.
  exists postController. split; [reflexivity|]. split; [left | by eexists].
Defined.

Lemma bootstrap_route_table_witness :
  Forall (resolves goodStores) (endpoints goodStores)
  /\ exists app',
       bootstrap specGetParam demoIsValidElement demoRender demoBodyParser
         demoRouterRoutes demoRouterAllowedMethods goodStores newApp = (Normal tt, app')
       /\ Forall2 (routeFor specGetParam demoIsValidElement demoRender goodStores)
            (endpoints goodStores) (router_stack app').
Proof.
  split; [exact goodStores_resolve|].
  exact (bootstrap_route_table specGetParam demoIsValidElement demoRender demoBodyParser
           demoRouterRoutes demoRouterAllowedMethods goodStores goodStores_resolve).
Defined.


Lemma bootstrap_succeeds_iff_witness :
  Forall (resolves goodStores) (endpoints goodStores)
  /\ exists app',
       bootstrap specGetParam demoIsValidElement demoRender demoBodyParser
         demoRouterRoutes demoRouterAllowedMethods goodStores newApp = (Normal tt, app').
Proof.
  split; [exact goodStores_resolve|].
  exact (proj2 (bootstrap_succeeds_iff specGetParam demoIsValidElement demoRender
                  demoBodyParser demoRouterRoutes demoRouterAllowedMethods goodStores)
           goodStores_resolve).
Defined.

Lemma bootstrap_partial_registration_witness :
  endpoints demoStores = [listPosts] ++ showUser :: []
  /\ Forall (resolves demoStores) [listPosts]
  /\ ~ resolves demoStores showUser
  /\ exists err app',
       demoBootstrap newApp = (Throw err, app')
       /\ length (router_stack app') = 1%nat
       /\ length (server_middleware app') = 4%nat.
Proof.
  assert (Hpre : Forall (resolves demoStores) [listPosts]).
  { constructor; [|constructor]. exists postController.
    split; [reflexivity|]. split; [left | by eexists]. }
  assert (Hnot : ~ resolves demoStores showUser).
  { intros (controller & Hc & _). discriminate Hc. }
  split; [reflexivity|]. split; [exact Hpre|]. split; [exact Hnot|].
  destruct (bootstrap_partial_registration specGetParam demoIsValidElement demoRender
              demoBodyParser demoRouterRoutes demoRouterAllowedMethods demoStores
              [listPosts] showUser [] eq_refl Hpre Hnot)
    as (err & app' & Hrun & Hroutes & _ & Hchain).
  exists err, app'. split; [exact Hrun|].
  split; [by rewrite <- (Forall2_length _ _ _ Hroutes) | by rewrite Hchain].
Defined.

Lemma bootstrap_unsupported_method_witness :
  let stores := storesWith [listPosts; lowerCaseEndpoint] in
  endpoints stores = [listPosts] ++ lowerCaseEndpoint :: []
  /\ Forall (resolves stores) [listPosts]
  /\ getController stores "PostController" = Some postController
  /\ ("get" ∉ supportedMethods)
  /\ exists app',
       bootstrap specGetParam demoIsValidElement demoRender demoBodyParser
         demoRouterRoutes demoRouterAllowedMethods stores newApp
       = (Throw (newError "Method get not found"), app').
Proof.
  intros stores.
  assert (Hpre : Forall (resolves stores) [listPosts]).
  { constructor; [apply listPosts_resolves | constructor]. }
  assert (Hm : "get" ∉ supportedMethods).
  { unfold supportedMethods. rewrite !not_elem_of_cons.
    repeat split; try discriminate. apply not_elem_of_nil. }
  split; [reflexivity|]. split; [exact Hpre|]. split; [reflexivity|]. split; [exact Hm|].
  exact (bootstrap_unsupported_method specGetParam demoIsValidElement demoRender
           demoBodyParser demoRouterRoutes demoRouterAllowedMethods stores
           [listPosts] lowerCaseEndpoint [] postController eq_refl Hpre eq_refl Hm).
Defined.




Lemma wrapMiddleware_transparent_witness :
  exec countOne (dispatch [] 1) enteredRun
    = (Normal tt, mkRun (withStatus (VNum 1) demoContext) 0 [0%nat] [])
  /\ dispatch [] 1 (mkRun (withStatus (VNum 1) demoContext) 0 [0%nat] [])
     = (Normal tt, mkRun (withStatus (VNum 1) demoContext) 1 [0%nat] [])
  /\ exec (wrapMiddleware countOne) (dispatch [] 1) enteredRun
     = (Normal tt, mkRun (withStatus (VNum 1) demoContext) 1 [0%nat] []).
Proof.
  split; [reflexivity|]. split; [reflexivity|].
  exact (wrapMiddleware_transparent countOne (dispatch [] 1) enteredRun
           (mkRun (withStatus (VNum 1) demoContext) 0 [0%nat] [])
           (mkRun (withStatus (VNum 1) demoContext) 1 [0%nat] []) eq_refl eq_refl).
Defined.


Lemma wrapMiddleware_double_next_witness :
  let use := AwaitNext (fun r => Finish r) in
  let final := ofRoute (demoDispatch (returning (VStr "hello")) []) in
  Forwards use
  /\ run_index enteredRun < Z.of_nat 1
  /\ exec use (dispatch [final] 1) enteredRun
     = (Normal tt, mkRun (withBody (VStr "hello") demoContext) 1 [0; 1]%nat [])
  /\ ctx_body (run_context (snd (exec (wrapMiddleware use) (dispatch [final] 1) enteredRun)))
     = VObj [("error", VStr "next() called multiple times"); ("status", VNum 500)].
Proof.
  intros use final.
  assert (Hfwd : Forwards use) by constructor.
  assert (Hlt : run_index enteredRun < Z.of_nat 1) by reflexivity.
  split; [exact Hfwd|]. split; [exact Hlt|]. split; [reflexivity|].
  destruct (wrapMiddleware_double_next use [final] 0 enteredRun
              (mkRun (withBody (VStr "hello") demoContext) 1 [0; 1]%nat [])
              Hfwd Hlt eq_refl) as (Hrun & _ & Hbody).
  rewrite Hrun. exact Hbody.
Defined.

Lemma loadProviders_always_scans_witness :
  let options := mkOptions 3000 (Some "/missing") in
  demoReaddirRecursive (appPath options "providers")
    = Throw (newError "ENOENT: no such file or directory, scandir '/missing/providers'")
  /\ demoExistsSync (appPath options "providers") = false
  /\ startup demoExistsSync demoReaddirRecursive demoImportModule
       specGetParam demoIsValidElement demoRender
       demoBodyParser demoRouterRoutes demoRouterAllowedMethods options freshBoot
     = (Throw (newError "ENOENT: no such file or directory, scandir '/missing/providers'"),
        freshBoot).
Proof.
  intros options. split; [reflexivity|]. split; [reflexivity|].
  exact (proj2 (loadProviders_always_scans demoExistsSync demoReaddirRecursive
                  demoImportModule specGetParam demoIsValidElement demoRender
                  demoBodyParser demoRouterRoutes demoRouterAllowedMethods options
                  freshBoot _ eq_refl)).
Defined.

Lemma startup_without_directories_witness :
  let run :=
    startup bareExistsSync bareReaddirRecursive demoImportModule
      specGetParam demoIsValidElement demoRender
      demoBodyParser demoRouterRoutes demoRouterAllowedMethods demoOptions in
  bareExistsSync (appPath demoOptions "controllers") = false
  /\ bareExistsSync (appPath demoOptions "middleware") = false
  /\ bareReaddirRecursive (appPath demoOptions "providers") = Normal []
  /\ fst (run freshBoot) = Normal tt
  /\ router_stack (boot_app (snd (run freshBoot))) = [].
Proof.
  intros run. do 3 (split; [reflexivity|]).
  destruct (startup_without_directories bareExistsSync bareReaddirRecursive
              demoImportModule specGetParam demoIsValidElement demoRender
              demoBodyParser demoRouterRoutes demoRouterAllowedMethods demoOptions
              freshBoot eq_refl eq_refl eq_refl) as (_ & _ & Hrun).
  unfold run. rewrite Hrun. split; reflexivity.
Defined.

Lemma loadControllers_import_fails_witness :
  let load := loadControllers demoExistsSync brokenReaddirRecursive demoImportModule
                demoOptions in
  demoExistsSync (appPath demoOptions "controllers") = true
  /\ brokenReaddirRecursive (appPath demoOptions "controllers")
     = Normal (["/srv/app/controllers/home.ts"] ++ "/srv/app/controllers/broken.ts"
               :: ["/srv/app/controllers/posts.ts"])
  /\ fst (load freshBoot)
     = Throw (newError "Cannot find module '/srv/app/controllers/broken.ts'")
  /\ endpoints (boot_stores (snd (load freshBoot))) = [home]
  /\ app_events (boot_app (snd (load freshBoot))) = [].
Proof.
  intros load. split; [reflexivity|]. split; [reflexivity|].
  pose proof (loadControllers_import_fails demoExistsSync brokenReaddirRecursive
                demoImportModule demoOptions freshBoot
                ["/srv/app/controllers/home.ts"] "/srv/app/controllers/broken.ts"
                ["/srv/app/controllers/posts.ts"]
                _ _ _ eq_refl eq_refl eq_refl eq_refl) as Hrun.
  unfold load. rewrite Hrun. repeat split; reflexivity.
Defined.

Lemma loadControllers_imports_all_witness :
  let load := loadControllers demoExistsSync demoReaddirRecursive demoImportModule
                demoOptions in
  demoExistsSync (appPath demoOptions "controllers") = true
  /\ demoReaddirRecursive (appPath demoOptions "controllers")
     = Normal ["/srv/app/controllers/home.ts"; "/srv/app/controllers/posts.ts"]
  /\ fst (load freshBoot) = Normal tt
  /\ endpoints (boot_stores (snd (load freshBoot))) = [home; listPosts]
  /\ app_events (boot_app (snd (load freshBoot)))
     = [Emit "load.controllers.done" []; Info "Loaded 2 controllers"].
Proof.
  intros load. split; [reflexivity|]. split; [reflexivity|].
  pose proof (loadControllers_imports_all demoExistsSync demoReaddirRecursive
                demoImportModule demoOptions freshBoot _ _ eq_refl eq_refl eq_refl) as Hrun.
  unfold load. rewrite Hrun. repeat split; reflexivity.
Defined.

Lemma startup_uses_loaded_stores_witness :
  fst (demoStartup freshBoot) = Normal tt
  /\ route_path <$> router_stack (boot_app (snd (demoStartup freshBoot))) = [""; "/posts"]
  /\ route_verb <$> router_stack (boot_app (snd (demoStartup freshBoot))) = ["get"; "get"].
Proof.
  pose proof (startup_uses_loaded_stores demoExistsSync demoReaddirRecursive
                demoImportModule specGetParam demoIsValidElement demoRender
                demoBodyParser demoRouterRoutes demoRouterAllowedMethods demoOptions
                freshBoot _ _ _ eq_refl eq_refl eq_refl) as Hrun.
  unfold demoStartup. rewrite Hrun. repeat split; reflexivity.
Defined.

Lemma startup_loader_fails_witness :
  let options := mkOptions 3000 (Some "/missing") in
  let run :=
    startup demoExistsSync demoReaddirRecursive demoImportModule
      specGetParam demoIsValidElement demoRender
      demoBodyParser demoRouterRoutes demoRouterAllowedMethods options in
  loadProviders demoReaddirRecursive demoImportModule options freshBoot
    = (Throw (newError "ENOENT: no such file or directory, scandir '/missing/providers'"),
       freshBoot)
  /\ run freshBoot
     = (Throw (newError "ENOENT: no such file or directory, scandir '/missing/providers'"),
        freshBoot)
  /\ server_middleware (boot_app freshBoot) = [].
Proof.
  intros options run.
  assert (Hload : loadProviders demoReaddirRecursive demoImportModule options freshBoot
    = (Throw (newError "ENOENT: no such file or directory, scandir '/missing/providers'"),
       freshBoot)) by reflexivity.
  split; [exact Hload|].
  destruct (startup_loader_fails demoExistsSync demoReaddirRecursive demoImportModule
              specGetParam demoIsValidElement demoRender
              demoBodyParser demoRouterRoutes demoRouterAllowedMethods options
              freshBoot _ _ (or_introl Hload)) as (Hrun & _).
  split; [exact Hrun | reflexivity].
Defined.

(** X25. [start] does not consult the outcome of start-up.  After a
    start-up that failed on an endpoint that does not resolve, [start]
    still resolves: the server is set listening on the port and
    [app.start] is emitted with it, while the middleware of the server
    is the chain of [configureMiddlewares] without the router. *)
Theorem start_after_failed_bootstrap
    (getParam : Context -> SourceKind -> Value -> Completion Value)
    (isValidElement : Value -> bool) (render : Value -> Completion Value)
    (bodyParser : list string -> Code)
    (routerRoutes routerAllowedMethods : list Route -> Code)
    (stores : Stores) (err : Value) (app' : App) (port : Z) :
  bootstrap getParam isValidElement render bodyParser routerRoutes routerAllowedMethods
            stores newApp = (Throw err, app') ->
  exists app'',
    start port app' = (Normal tt, app'')
    /\ server_listening app'' = Some port
    /\ server_middleware app''
       = requestLogger :: bodyParser ["json"; "form"; "text"]
         :: (wrapMiddleware <$> middlewareStore stores)
    /\ app_events app''
       = app_events app'
         ++ [Emit "app.start" [VNum port];
             Info ("Server started on port " +:+ pretty port)].
Proof.
  intros Hboot.
  assert (Hchain : server_middleware app'
            = requestLogger :: bodyParser ["json"; "form"; "text"]
              :: (wrapMiddleware <$> middlewareStore stores)).
  { unfold bootstrap in Hboot.
    rewrite (bind_normal _ _ _ _ _ (configureMiddlewares_run bodyParser stores newApp))
      in Hboot.
    unfold configureRouters in Hboot. unfold bind at 1 2 in Hboot.
    destruct (forEach (endpoints stores) _ _) as [[[]|e] app1] eqn:Hloop.
    - unfold bind, gets, serverUse, emit, loggerInfo, perform, modify in Hboot.
      discriminate Hboot.
    - injection Hboot as _ <-.
      by destruct (forEach_assembling _ _ _ _ _ _ _ _ Hloop) as (-> & _). }
  exists (mkApp (server_middleware app') (router_stack app') (methods app') (Some port)
            (app_events app'
               ++ [Emit "app.start" [VNum port];
                   Info ("Server started on port " +:+ pretty port)])).
  split.
  - unfold start, bind, serverListen, emit, loggerInfo, perform, modify.
    cbn [server_middleware router_stack methods server_listening app_events].
    by rewrite <- app_assoc.
  - cbn [server_middleware server_listening app_events]. by rewrite Hchain.
Qed.

Lemma start_after_failed_bootstrap_witness :
  exists app',
    demoBootstrap newApp = (Throw (newError "Controller UserController not found"), app')
    /\ exists app'',
         start 3000 app' = (Normal tt, app'')
         /\ server_listening app'' = Some 3000
         /\ length (server_middleware app'') = 4%nat.
Proof.
  set (failed := snd (demoBootstrap newApp)).
  assert (Hboot : demoBootstrap newApp
            = (Throw (newError "Controller UserController not found"), failed))
    by (vm_compute; reflexivity).
  exists failed. split; [exact Hboot|].
  destruct (start_after_failed_bootstrap specGetParam demoIsValidElement demoRender
              demoBodyParser demoRouterRoutes demoRouterAllowedMethods demoStores
              _ failed 3000 Hboot) as (app'' & Hstart & Hlisten & Hchain & _).
  exists app''. split; [exact Hstart|]. split; [exact Hlisten|]. by rewrite Hchain.
Defined.
